(** * Verification of [visualize.py]: TLE parsing and animation timeline

    A shallow embedding of the original logic of the script:
    - [load_satellites], the parser of three-line element sets, with the
      Python string methods it relies on ([splitlines], [strip],
      [startswith]) and its [while] loop;
    - the bookkeeping that turns per-satellite position arrays into orbit
      traces, initial markers and animation frames;
    - the loop that exports every second frame.

    The astronomy library (time scale, propagation), the Earth sphere
    computed by [numpy] and the network are external: they are the variables
    of a section.  The constructor [EarthSatellite] is taken to store its
    arguments.  The layout of the figure, the static views and the HTML
    export are not modelled. *)

From Stdlib Require Import String Ascii DecimalString DecimalPos.
From Stdlib Require Import ZArith List Bool Lia Sorted.
From Stdlib Require Import Floats.PrimFloat.
Import ListNotations.

#[local] Set Warnings "-inexact-float".
#[local] Open Scope Z_scope.

(** ** Python values *)

(** A Python [str] is a sequence of Unicode code points. *)
Definition codepoint := Z.
Definition pystr := list codepoint.

(** A literal of the source, written as a Rocq string of ASCII characters. *)
Definition py (s : string) : pystr :=
  map (fun a => Z.of_N (N_of_ascii a)) (list_ascii_of_string s).

(** [len(l)] *)
Definition len {A : Type} (l : list A) : Z := Z.of_nat (length l).

(** Exceptions the modelled code can raise. *)
Inductive exn : Type :=
| IndexError
| ValueError
| HTTPError (status : Z)
| RequestException.

(** The outcome of running a piece of the script: a value, an uncaught
    exception, or the exhaustion of the fuel given to a [while] loop. *)
Inductive outcome (A : Type) : Type :=
| Ok (a : A)
| Raise (e : exn)
| OutOfFuel.
Arguments Ok {A} a.
Arguments Raise {A} e.
Arguments OutOfFuel {A}.

Definition bind {A B : Type} (m : outcome A) (k : A -> outcome B) : outcome B :=
  match m with
  | Ok a => k a
  | Raise e => Raise e
  | OutOfFuel => OutOfFuel
  end.

Declare Scope py_scope.
Delimit Scope py_scope with py.
Notation "x <- m ;; k" := (bind m (fun x => k))
  (at level 61, m at next level, right associativity) : py_scope.
#[local] Open Scope py_scope.

(** [for x in l: out.append(f(x))], stopping at the first exception. *)
Fixpoint for_each {A B : Type} (f : A -> outcome B) (l : list A) : outcome (list B) :=
  match l with
  | [] => Ok []
  | x :: l' => y <- f x ;; ys <- for_each f l' ;; Ok (y :: ys)
  end.

(** [l[i]] on a Python sequence: a negative index counts from the end, an
    index out of range raises [IndexError]. *)
Definition getitem {A : Type} (l : list A) (i : Z) : outcome A :=
  let j := if i <? 0 then i + len l else i in
  if (0 <=? j) && (j <? len l) then
    match nth_error l (Z.to_nat j) with
    | Some x => Ok x
    | None => Raise IndexError
    end
  else Raise IndexError.

(** [enumerate(l)] *)
Fixpoint enumerate_from {A : Type} (i : Z) (l : list A) : list (Z * A) :=
  match l with
  | [] => []
  | x :: l' => (i, x) :: enumerate_from (i + 1) l'
  end.
Definition enumerate {A : Type} (l : list A) : list (Z * A) := enumerate_from 0 l.

(** [range(start, stop, step)]; a zero step raises [ValueError]. *)
Fixpoint range_up (n : nat) (start step : Z) : list Z :=
  match n with
  | O => []
  | S n' => start :: range_up n' (start + step) step
  end.

Definition range3 (start stop step : Z) : outcome (list Z) :=
  if step =? 0 then Raise ValueError
  else if 0 <? step then
    Ok (range_up (Z.to_nat ((stop - start + step - 1) / step)) start step)
  else
    Ok (range_up (Z.to_nat ((start - stop - step - 1) / (- step))) start step).

(** [range(n)] *)
Definition range (n : Z) : list Z := range_up (Z.to_nat n) 0 1.

(** [l * n] on a list: [n] copies, none when [n <= 0]. *)
Definition list_mul {A : Type} (l : list A) (n : Z) : list A :=
  concat (repeat l (Z.to_nat n)).

(** [s[:n]] for [n >= 0]. *)
Definition slice_to {A : Type} (l : list A) (n : nat) : list A := firstn n l.

(** [str(n)] on an [int]. *)
Definition str_of_int (n : Z) : pystr := py (NilZero.string_of_int (Z.to_int n)).

(** ** String methods *)

(** The line boundaries of [str.splitlines]. *)
Definition is_linebreak (c : codepoint) : bool :=
  ((10 <=? c) && (c <=? 13)) || ((28 <=? c) && (c <=? 30))
  || (c =? 133) || (c =? 8232) || (c =? 8233).

(** The characters removed by [str.strip()] (those with [str.isspace]). *)
Definition is_space (c : codepoint) : bool :=
  ((9 <=? c) && (c <=? 13)) || ((28 <=? c) && (c <=? 32))
  || (c =? 133) || (c =? 160) || (c =? 5760)
  || ((8192 <=? c) && (c <=? 8202))
  || (c =? 8232) || (c =? 8233) || (c =? 8239) || (c =? 8287) || (c =? 12288).

Definition CR : codepoint := 13.
Definition LF : codepoint := 10.

(** [s.splitlines()]: [cur] holds the characters of the line being read, in
    reverse.  A carriage return followed by a line feed is one boundary; a
    final line is kept only when it is not empty. *)
Fixpoint splitlines_from (cur : pystr) (s : pystr) : list pystr :=
  match s with
  | [] => match cur with
          | [] => []
          | _ :: _ => [rev cur]
          end
  | c :: rest =>
      if is_linebreak c then
        match rest with
        | c' :: rest' =>
            if (c =? CR) && (c' =? LF)
            then rev cur :: splitlines_from [] rest'
            else rev cur :: splitlines_from [] rest
        | [] => rev cur :: splitlines_from [] rest
        end
      else splitlines_from (c :: cur) rest
  end.

Definition splitlines (s : pystr) : list pystr := splitlines_from [] s.

Fixpoint lstrip (s : pystr) : pystr :=
  match s with
  | [] => []
  | c :: rest => if is_space c then lstrip rest else s
  end.

Definition rstrip (s : pystr) : pystr := rev (lstrip (rev s)).

(** [s.strip()] *)
Definition strip (s : pystr) : pystr := rstrip (lstrip s).

(** [s.startswith(prefix)] *)
Fixpoint startswith (s prefix : pystr) {struct prefix} : bool :=
  match prefix with
  | [] => true
  | p :: prefix' =>
      match s with
      | [] => false
      | c :: s' => (c =? p) && startswith s' prefix'
      end
  end.

(** ** The parser: [load_satellites] *)

(** [EarthSatellite(line1, line2, name, ts)]: the element record handed to
    the astronomy library, which keeps the two element lines and the name.
    The arguments come in the order of the call. *)
Record EarthSatellite : Type := mkEarthSatellite {
  sat_line1 : pystr;
  sat_line2 : pystr;
  sat_name : pystr
}.

(** The variables of the [while] loop. *)
Record loop_state : Type := mkLoop {
  satellites : list EarthSatellite;
  i : Z
}.

(** [len(satellites) < max_sats and i + 2 < len(lines)] *)
Definition loop_cond (lines : list pystr) (max_sats : Z) (st : loop_state) : bool :=
  (len (satellites st) <? max_sats) && (i st + 2 <? len lines).

(** One execution of the loop body. *)
Definition loop_body (lines : list pystr) (st : loop_state) : outcome loop_state :=
  raw0 <- getitem lines (i st) ;;
  let name := strip raw0 in
  raw1 <- getitem lines (i st + 1) ;;
  let line1 := strip raw1 in
  raw2 <- getitem lines (i st + 2) ;;
  let line2 := strip raw2 in
  let satellites' :=
    if startswith line1 (py "1 ") && startswith line2 (py "2 ")
    then satellites st ++ [mkEarthSatellite line1 line2 name]
    else satellites st in
  Ok (mkLoop satellites' (i st + 3)).

Fixpoint while_loop (fuel : nat) (lines : list pystr) (max_sats : Z)
    (st : loop_state) : outcome loop_state :=
  match fuel with
  | O => OutOfFuel
  | S fuel' =>
      if loop_cond lines max_sats st then
        st' <- loop_body lines st ;;
        while_loop fuel' lines max_sats st'
      else Ok st
  end.

(** The state in which the loop of [load_satellites] ends, on the lines of
    the response.  The loop runs at most once per line. *)
Definition load_loop (lines : list pystr) (max_sats : Z) : outcome loop_state :=
  while_loop (S (length lines)) lines max_sats (mkLoop [] 0).

(** Lines 11 to 24: from the text of the response to the satellites. *)
Definition load_satellites_text (text : pystr) (max_sats : Z)
    : outcome (list EarthSatellite) :=
  let lines := splitlines text in
  st <- load_loop lines max_sats ;;
  Ok (satellites st).

(** The answer of [requests.get]. *)
Record Response : Type := mkResponse {
  status_code : Z;
  text : pystr
}.

(** [response.raise_for_status()] *)
Definition raise_for_status (r : Response) : outcome unit :=
  if (400 <=? status_code r) && (status_code r <? 600)
  then Raise (HTTPError (status_code r))
  else Ok tt.

(** [load_satellites(url, max_sats)], on the network [requests_get]. *)
Definition load_satellites (requests_get : pystr -> outcome Response)
    (url : pystr) (max_sats : Z) : outcome (list EarthSatellite) :=
  response <- requests_get url ;;
  _ <- raise_for_status response ;;
  load_satellites_text (text response) max_sats.

(** ** Array bookkeeping: traces, markers, frames *)

(** A two-dimensional [numpy] array, by rows. *)
Definition ndarray := list (list float).

(** [a[r, c]] *)
Definition getitem2 (a : ndarray) (r c : Z) : outcome float :=
  row <- getitem a r ;;
  getitem row c.

(** [a.shape == (rows, cols)] *)
Definition has_shape (a : ndarray) (rows cols : Z) : bool :=
  (len a =? rows) && forallb (fun row => len row =? cols) a.

(** [dict(color=..., width=...)] and [dict(size=..., color=...)] *)
Record LineStyle : Type := mkLine { line_color : pystr; line_width : Z }.
Record MarkerStyle : Type := mkMarker { marker_size : Z; marker_color : pystr }.

(** The traces the script builds: [go.Surface] and [go.Scatter3d], with the
    keyword arguments the script passes. *)
Inductive trace : Type :=
| Surface (x y z : ndarray) (colorscale : pystr) (showscale : bool)
    (opacity : float) (name : pystr)
| Scatter3d (x y z : list float) (mode : pystr) (line : option LineStyle)
    (marker : option MarkerStyle) (name : pystr) (hoverinfo : option pystr).

(** [go.Frame(data=..., name=...)] *)
Record Frame : Type := mkFrame { frame_data : list trace; frame_name : pystr }.

(** One call of [fig.write_image] in the export loop, with the traces the
    figure was updated with just before. *)
Record WriteImage : Type := mkWriteImage {
  path : pystr;
  shown : list trace;
  width : Z;
  height : Z;
  scale : Z
}.

(** Configuration *)
Definition STARLINK_URL : pystr :=
  py "https://celestrak.org/NORAD/elements/gp.php?GROUP=starlink&FORMAT=tle".
Definition MAX_SATS : Z := 30.
Definition DURATION_DAYS : float := 0.1%float.
Definition NUM_FRAMES : Z := 300.

(** Colors for satellites *)
Definition palette : list pystr :=
  [py "#636EFA"; py "#EF553B"; py "#00CC96"; py "#AB63FA"; py "#FFA15A";
   py "#19D3F3"; py "#FF6692"; py "#B6E880"; py "#FF97FF"; py "#FECB52"].
Definition colors : list pystr := list_mul palette (MAX_SATS / 10 + 1).

(** The body of the loop over [enumerate(positions)] (static orbit traces). *)
Definition orbit_trace (names : list pystr) (ip : Z * ndarray) : outcome trace :=
  let (i, pos) := ip in
  x <- getitem pos 0 ;;
  y <- getitem pos 1 ;;
  z <- getitem pos 2 ;;
  color <- getitem colors i ;;
  name <- getitem names i ;;
  Ok (Scatter3d x y z (py "lines") (Some (mkLine color 3)) None name
        (Some (py "name"))).

(** The body of the loop that builds [initial_markers] (first position). *)
Definition initial_marker (positions : list ndarray) (names : list pystr)
    (i : Z) : outcome trace :=
  pos <- getitem positions i ;;
  x <- getitem2 pos 0 0 ;;
  y <- getitem2 pos 1 0 ;;
  z <- getitem2 pos 2 0 ;;
  color <- getitem colors i ;;
  name <- getitem names i ;;
  Ok (Scatter3d [x] [y] [z] (py "markers") None (Some (mkMarker 8 color)) name
        None).

(** The body of the inner loop of the animation frames. *)
Definition marker_update (positions : list ndarray) (names : list pystr)
    (frame_num i : Z) : outcome trace :=
  pos <- getitem positions i ;;
  x <- getitem2 pos 0 frame_num ;;
  y <- getitem2 pos 1 frame_num ;;
  z <- getitem2 pos 2 frame_num ;;
  color <- getitem colors i ;;
  name <- getitem names i ;;
  Ok (Scatter3d [x] [y] [z] (py "markers") None (Some (mkMarker 8 color)) name
        None).

(** The body of the outer loop of the animation frames. *)
Definition build_frame (sats : list EarthSatellite) (positions : list ndarray)
    (names : list pystr) (frame_num : Z) : outcome Frame :=
  marker_updates <- for_each (marker_update positions names frame_num)
                      (range (len sats)) ;;
  Ok (mkFrame marker_updates (str_of_int frame_num)).

(** [f"{frame_idx:04d}"] *)
Definition format_04d (n : Z) : pystr :=
  let sign := if n <? 0 then py "-" else [] in
  let digits := str_of_int (Z.abs n) in
  sign ++ repeat 48 (4 - length sign - length digits) ++ digits.

(** [f"assets/frames/frame_{frame_idx:04d}.png"] *)
Definition frame_path (frame_idx : Z) : pystr :=
  py "assets/frames/frame_" ++ format_04d frame_idx ++ py ".png".

(** The loop that exports the frames for the GIF; [static] is
    [[earth] + orbit_traces]. *)
Fixpoint export_loop (frames : list Frame) (static : list trace)
    (frame_nums : list Z) (frame_idx : Z) : outcome (list WriteImage) :=
  match frame_nums with
  | [] => Ok []
  | frame_num :: rest =>
      frame <- getitem frames frame_num ;;
      let written :=
        mkWriteImage (frame_path frame_idx) (static ++ frame_data frame)
          1280 720 1 in
      more <- export_loop frames static rest (frame_idx + 1) ;;
      Ok (written :: more)
  end.

(** What a run of the script computes. *)
Record Run (Time : Type) : Type := mkRun {
  run_satellites : list EarthSatellite;
  run_start_time : Time;
  run_t : Time;
  run_positions : list ndarray;
  run_names : list pystr;
  run_orbit_traces : list trace;
  run_initial_markers : list trace;
  run_frames : list Frame;
  run_exported : list WriteImage
}.
Arguments mkRun {Time}.
Arguments run_satellites {Time}.
Arguments run_start_time {Time}.
Arguments run_t {Time}.
Arguments run_positions {Time}.
Arguments run_names {Time}.
Arguments run_orbit_traces {Time}.
Arguments run_initial_markers {Time}.
Arguments run_frames {Time}.
Arguments run_exported {Time}.

Section Script.

(** The astronomy library: its [Time] objects, [ts.utc], [Time + days],
    [ts.linspace] and [sat.at(t).position.km]. *)
Variable Time : Type.
Variable ts_utc : Z -> Z -> Z -> Time.
Variable time_add : Time -> float -> Time.
Variable ts_linspace : Time -> Time -> Z -> Time.
Variable position_km : EarthSatellite -> Time -> ndarray.

(** The Earth sphere, computed by [numpy]. *)
Variables x_earth y_earth z_earth : ndarray.

(** What a run finds around it: the network, the clock and a source of
    randomness.  The script reads the network only. *)
Record World : Type := mkWorld {
  requests_get : pystr -> outcome Response;
  now : Time;
  random_state : Z
}.

Definition start_time : Time := ts_utc 2026 2 1.
Definition t : Time :=
  ts_linspace start_time (time_add start_time DURATION_DAYS) NUM_FRAMES.

Definition earth : trace :=
  Surface x_earth y_earth z_earth (py "Blues") false 0.7%float (py "Earth").

(** The script from the loaded satellites on. *)
Definition render (sats : list EarthSatellite) : outcome (Run Time) :=
  let positions := map (fun sat => position_km sat t) sats in
  let names := map (fun sat => slice_to (sat_name sat) 20) sats in
  orbit_traces <- for_each (orbit_trace names) (enumerate positions) ;;
  initial_markers <- for_each (initial_marker positions names)
                       (range (len sats)) ;;
  frames <- for_each (build_frame sats positions names) (range NUM_FRAMES) ;;
  frame_nums <- range3 0 NUM_FRAMES 2 ;;
  exported <- export_loop frames ([earth] ++ orbit_traces) frame_nums 0 ;;
  Ok (mkRun sats start_time t positions names orbit_traces initial_markers
        frames exported).

(** The whole script. *)
Definition script (w : World) : outcome (Run Time) :=
  sats <- load_satellites (requests_get w) STARLINK_URL MAX_SATS ;;
  render sats.

End Script.

Arguments requests_get {Time}.
Arguments now {Time}.
Arguments random_state {Time}.

(** ** The parser as the specification words it

    Records are read in fixed-size groups of three lines; a group is accepted
    when its trimmed element lines carry the prefixes; at most [M] accepted
    records are kept, in input order.  These definitions follow the
    specification and are compared with [load_satellites] below. *)

Definition group : Type := pystr * pystr * pystr.

Fixpoint spec_groups (lines : list pystr) : list group :=
  match lines with
  | a :: b :: c :: rest => (a, b, c) :: spec_groups rest
  | _ => []
  end.

Definition prefix_check (line1 line2 : pystr) : bool :=
  startswith line1 (py "1 ") && startswith line2 (py "2 ").

Definition spec_accept (g : group) : option EarthSatellite :=
  let '(a, b, c) := g in
  if prefix_check (strip b) (strip c)
  then Some (mkEarthSatellite (strip b) (strip c) (strip a))
  else None.

Fixpoint spec_records (gs : list group) : list EarthSatellite :=
  match gs with
  | [] => []
  | g :: gs' =>
      match spec_accept g with
      | Some sat => sat :: spec_records gs'
      | None => spec_records gs'
      end
  end.

Definition spec_parse (lines : list pystr) (M : Z) : list EarthSatellite :=
  firstn (Z.to_nat M) (spec_records (spec_groups lines)).

(** The lines of a sequence of groups, and the groups seen when one extra
    line comes first. *)
Fixpoint flat_groups (gs : list group) : list pystr :=
  match gs with
  | [] => []
  | (a, b, c) :: gs' => a :: b :: c :: flat_groups gs'
  end.

Fixpoint shifted_groups (x : pystr) (gs : list group) : list group :=
  match gs with
  | [] => []
  | (a, b, c) :: gs' => (x, a, b) :: shifted_groups c gs'
  end.

(** A line that holds no line boundary. *)
Definition no_linebreak (l : pystr) : bool :=
  forallb (fun c => negb (is_linebreak c)) l.

(** A text whose lines are [lines], each ended by a line feed. *)
Fixpoint unlines (lines : list pystr) : pystr :=
  match lines with
  | [] => []
  | l :: lines' => l ++ LF :: unlines lines'
  end.

(** The loop by recursion on the lines not yet consumed. *)
Fixpoint scan (rest : list pystr) (max_sats : Z) (sats : list EarthSatellite)
    (i : Z) : loop_state :=
  match rest with
  | a :: b :: c :: rest' =>
      if len sats <? max_sats then
        scan rest' max_sats
          (match spec_accept (a, b, c) with
           | Some sat => sats ++ [sat]
           | None => sats
           end) (i + 3)
      else mkLoop sats i
  | _ => mkLoop sats i
  end.

(** The iterations of the loop as a step relation. *)
Inductive loop_step (lines : list pystr) (max_sats : Z)
  : loop_state -> loop_state -> Prop :=
| loop_step_intro st st' :
    loop_cond lines max_sats st = true ->
    loop_body lines st = Ok st' ->
    loop_step lines max_sats st st'.

Inductive loop_steps (lines : list pystr) (max_sats : Z)
  : nat -> loop_state -> loop_state -> Prop :=
| loop_steps_O st : loop_steps lines max_sats O st st
| loop_steps_S k st st' st'' :
    loop_step lines max_sats st st' ->
    loop_steps lines max_sats k st' st'' ->
    loop_steps lines max_sats (S k) st st''.

(** The color of a scatter trace: that of its line or of its marker. *)
Definition trace_color (tr : trace) : option pystr :=
  match tr with
  | Surface _ _ _ _ _ _ _ => None
  | Scatter3d _ _ _ _ (Some l) _ _ _ => Some (line_color l)
  | Scatter3d _ _ _ _ None (Some m) _ _ => Some (marker_color m)
  | Scatter3d _ _ _ _ None None _ _ => None
  end.

(** ** A test double of the external library

    Synthetic trajectories and a canned response, on which the script can be
    run. *)

Definition demo_utc (year month day : Z) : Z := year * 10000 + month * 100 + day.
Definition demo_add (time : Z) (days : float) : Z := time.
Definition demo_linspace (first last num : Z) : Z := first.
Definition demo_position_km (sat : EarthSatellite) (time : Z) : ndarray :=
  [repeat 6900%float 150 ++ repeat (-6900)%float 150;
   repeat 0%float 300;
   repeat 120%float 300].
Definition demo_text : pystr :=
  unlines [py "STARLINK-1008           "; py "1 44714U 19074B"; py "2 44714  53.0";
           py "STARLINK-1010           "; py "1 44716U 19074D"; py "2 44716  53.1"].
Definition demo_shifted_text : pystr :=
  unlines [py "extra line";
           py "SAT A"; py "1 00001U"; py "2 00001";
           py "SAT B"; py "1 00002U"; py "2 00002"].
Definition demo_world (clock seed : Z) : World Z :=
  mkWorld Z (fun _ => Ok (mkResponse 200 demo_text)) clock seed.
Definition demo_script (w : World Z) : outcome (Run Z) :=
  script Z demo_utc demo_add demo_linspace demo_position_km [] [] [] w.

(** ** Line endings, padding and the figure *)

(** A text whose lines all end with the line ending [eol]. *)
Fixpoint join_lines (eol : pystr) (lines : list pystr) : pystr :=
  match lines with
  | [] => []
  | l :: lines' => l ++ eol ++ join_lines eol lines'
  end.

(** A line ending: one line boundary character, or a carriage return
    followed by a line feed. *)
Definition is_eol (eol : pystr) : bool :=
  match eol with
  | [c] => is_linebreak c
  | [c; c'] => (c =? CR) && (c' =? LF)
  | _ => false
  end.

(** A string of white space only. *)
Definition all_space (s : pystr) : bool := forallb is_space s.

(** [go.Figure(data=[earth] + orbit_traces + initial_markers)]: the traces
    of the figure (line 88). *)
Definition figure_data (earth : trace) (orbit_traces initial_markers : list trace)
    : list trace :=
  [earth] ++ orbit_traces ++ initial_markers.

(** The ASCII string of a [str], the number its decimal digits spell
    (leading zeros allowed), and the frame index spelt by a path of the
    export loop. *)
Definition unpy (s : pystr) : string :=
  string_of_list_ascii (map (fun c => ascii_of_N (Z.to_N c)) s).

Definition decimal_value (s : pystr) : option Z :=
  option_map Z.of_uint (NilEmpty.uint_of_string (unpy s)).

Definition frame_index_of_path (p : pystr) : option Z :=
  decimal_value (firstn (length p - 24) (skipn 20 p)).

(** * Properties *)

(** ** The string methods on examples *)

Lemma splitlines_examples :
  splitlines [] = [] /\
  splitlines (py "ISS") = [py "ISS"] /\
  splitlines [97; CR; LF; 98; CR; 99; LF] = [[97]; [98]; [99]] /\
  splitlines [97; LF; LF; 98] = [[97]; []; [98]] /\
  splitlines [97; LF; LF] = [[97]; []] /\
  splitlines [97; LF; CR] = [[97]; []] /\
  splitlines [97; 8232; 98; 12; 99] = [[97]; [98]; [99]].
Proof. repeat split. Qed.

Lemma strip_examples :
  strip (py "  ISS (ZARYA)   ") = py "ISS (ZARYA)" /\
  strip [9; 49; 32; 50; CR] = [49; 32; 50] /\
  strip (py "   ") = [] /\
  strip [160; 73; 12288] = [73].
Proof. repeat split. Qed.

Lemma startswith_examples :
  startswith (py "1 25544U") (py "1 ") = true /\
  startswith (py "1") (py "1 ") = false /\
  startswith (py "X garbage") (py "1 ") = false /\
  startswith (py "12 ") (py "1 ") = false.
Proof. repeat split. Qed.

Lemma frame_path_examples :
  frame_path 0 = py "assets/frames/frame_0000.png" /\
  frame_path 7 = py "assets/frames/frame_0007.png" /\
  frame_path 149 = py "assets/frames/frame_0149.png" /\
  str_of_int 298 = py "298".
Proof. repeat split. Qed.

Lemma range_examples :
  range 3 = [0; 1; 2] /\
  range (-2) = [] /\
  range3 0 7 2 = Ok [0; 2; 4; 6] /\
  range3 0 8 2 = Ok [0; 2; 4; 6] /\
  range3 5 0 (-2) = Ok [5; 3; 1] /\
  range3 0 5 0 = Raise ValueError.
Proof. repeat split. Qed.

(** ** Sequences *)

Lemma bind_Ok {A B : Type} (m : outcome A) (k : A -> outcome B) (a : A) :
  m = Ok a -> bind m k = k a.
Proof. intros ->. reflexivity. Qed.

Lemma len_nonneg {A : Type} (l : list A) : 0 <= len l.
Proof. unfold len. lia. Qed.

Lemma len_app {A : Type} (l1 l2 : list A) : len (l1 ++ l2) = len l1 + len l2.
Proof. unfold len. rewrite length_app. lia. Qed.

Lemma len_cons {A : Type} (x : A) (l : list A) : len (x :: l) = len l + 1.
Proof. unfold len. simpl length. lia. Qed.

Lemma len_nil {A : Type} : len (@nil A) = 0.
Proof. reflexivity. Qed.

Lemma getitem_nth_error {A : Type} (l : list A) (k : nat) (x : A) :
  nth_error l k = Some x -> getitem l (Z.of_nat k) = Ok x.
Proof.
  intros H. unfold getitem.
  assert (Hk : (k < length l)%nat) by (apply nth_error_Some; congruence).
  destruct (Z.ltb_spec (Z.of_nat k) 0) as [?|_]; [lia|].
  destruct (Z.leb_spec 0 (Z.of_nat k)) as [_|?]; [|lia].
  destruct (Z.ltb_spec (Z.of_nat k) (len l)) as [_|?]; [|unfold len in *; lia].
  simpl. rewrite Nat2Z.id, H. reflexivity.
Qed.

Lemma getitem_Ok_nth_error {A : Type} (l : list A) (k : Z) (x : A) :
  0 <= k -> getitem l k = Ok x -> nth_error l (Z.to_nat k) = Some x.
Proof.
  intros Hk. unfold getitem.
  destruct (Z.ltb_spec k 0) as [?|_]; [lia|].
  destruct ((0 <=? k) && (k <? len l)); [|discriminate].
  destruct (nth_error l (Z.to_nat k)); [|discriminate].
  intros [= ->]. reflexivity.
Qed.

Lemma getitem_in_range {A : Type} (l : list A) (k : Z) :
  0 <= k < len l -> exists x, getitem l k = Ok x.
Proof.
  intros Hk.
  destruct (nth_error l (Z.to_nat k)) as [x|] eqn:E.
  - exists x. rewrite <- (Z2Nat.id k) by lia. now apply getitem_nth_error.
  - apply nth_error_None in E. unfold len in Hk. lia.
Qed.

Lemma getitem_out_of_range {A : Type} (l : list A) (k : Z) :
  len l <= k -> getitem l k = Raise IndexError.
Proof.
  intros Hk. unfold getitem. pose proof (len_nonneg l).
  destruct (Z.ltb_spec k 0) as [?|_]; [lia|].
  destruct (Z.ltb_spec k (len l)) as [?|_]; [lia|].
  now rewrite andb_false_r.
Qed.

Lemma getitem_app_r {A : Type} (pre rest : list A) (k : Z) :
  0 <= k -> getitem (pre ++ rest) (len pre + k) = getitem rest k.
Proof.
  intros Hk. unfold getitem. rewrite len_app. pose proof (len_nonneg pre).
  destruct (Z.ltb_spec (len pre + k) 0) as [?|_]; [lia|].
  destruct (Z.ltb_spec k 0) as [?|_]; [lia|].
  destruct (Z.leb_spec 0 (len pre + k)) as [_|?]; [|lia].
  destruct (Z.leb_spec 0 k) as [_|?]; [|lia].
  replace (Z.to_nat (len pre + k)) with (length pre + Z.to_nat k)%nat
    by (unfold len; lia).
  rewrite nth_error_app2 by lia.
  replace (length pre + Z.to_nat k - length pre)%nat with (Z.to_nat k) by lia.
  destruct (Z.ltb_spec (len pre + k) (len pre + len rest));
    destruct (Z.ltb_spec k (len rest)); try lia; reflexivity.
Qed.

Lemma getitem_app_l {A : Type} (l1 l2 : list A) (k : Z) :
  0 <= k < len l1 -> getitem (l1 ++ l2) k = getitem l1 k.
Proof.
  intros Hk. destruct (getitem_in_range l1 k Hk) as [x Hx]. rewrite Hx.
  apply getitem_Ok_nth_error in Hx; [|lia].
  rewrite <- (Z2Nat.id k) by lia. apply getitem_nth_error.
  rewrite nth_error_app1; [assumption|]. unfold len in Hk. lia.
Qed.

Lemma getitem_map {A B : Type} (f : A -> B) (l : list A) (k : Z) (x : A) :
  getitem l k = Ok x -> 0 <= k -> getitem (map f l) k = Ok (f x).
Proof.
  intros H Hk. apply getitem_Ok_nth_error in H; [|assumption].
  rewrite <- (Z2Nat.id k) by lia. apply getitem_nth_error.
  rewrite nth_error_map, H. reflexivity.
Qed.

(** ** The loop of [load_satellites] *)

Lemma list_ind3 {A : Type} (P : list A -> Prop) :
  P [] -> (forall a, P [a]) -> (forall a b, P [a; b]) ->
  (forall a b c rest, P rest -> P (a :: b :: c :: rest)) ->
  forall l, P l.
Proof.
  intros H0 H1 H2 H3. fix IH 1. intros [|a [|b [|c rest]]].
  - exact H0.
  - apply H1.
  - apply H2.
  - apply H3. apply IH.
Qed.

Lemma getitem_group (pre : list pystr) (a b c : pystr) (rest : list pystr) :
  getitem (pre ++ a :: b :: c :: rest) (len pre) = Ok a /\
  getitem (pre ++ a :: b :: c :: rest) (len pre + 1) = Ok b /\
  getitem (pre ++ a :: b :: c :: rest) (len pre + 2) = Ok c.
Proof.
  repeat split.
  - apply getitem_nth_error. rewrite nth_error_app2 by lia.
    now rewrite Nat.sub_diag.
  - replace (len pre + 1) with (Z.of_nat (length pre + 1)) by (unfold len; lia).
    apply getitem_nth_error. rewrite nth_error_app2 by lia.
    now replace (length pre + 1 - length pre)%nat with 1%nat by lia.
  - replace (len pre + 2) with (Z.of_nat (length pre + 2)) by (unfold len; lia).
    apply getitem_nth_error. rewrite nth_error_app2 by lia.
    now replace (length pre + 2 - length pre)%nat with 2%nat by lia.
Qed.

Lemma loop_body_group (pre : list pystr) (a b c : pystr) (rest : list pystr)
    (sats : list EarthSatellite) :
  loop_body (pre ++ a :: b :: c :: rest) (mkLoop sats (len pre)) =
  Ok (mkLoop (match spec_accept (a, b, c) with
              | Some sat => sats ++ [sat]
              | None => sats
              end) (len pre + 3)).
Proof.
  destruct (getitem_group pre a b c rest) as (Ha & Hb & Hc).
  unfold loop_body. cbn [i satellites]. rewrite Ha, Hb, Hc. cbn [bind].
  unfold spec_accept, prefix_check.
  destruct (startswith (strip b) (py "1 ") && startswith (strip c) (py "2 "));
    reflexivity.
Qed.

(** The loop computes [scan], whatever the fuel beyond the number of lines
    left. *)
Lemma while_loop_scan (fuel : nat) :
  forall (pre rest : list pystr) (max_sats : Z) (sats : list EarthSatellite),
    (length rest < fuel)%nat ->
    while_loop fuel (pre ++ rest) max_sats (mkLoop sats (len pre)) =
    Ok (scan rest max_sats sats (len pre)).
Proof.
  induction fuel as [|fuel IH]; intros pre rest max_sats sats Hfuel; [lia|].
  cbn [while_loop]. unfold loop_cond. cbn [i satellites]. rewrite len_app.
  destruct rest as [|a [|b [|c rest]]].
  - rewrite len_nil. destruct (Z.ltb_spec (len pre + 2) (len pre + 0)); [lia|].
    now rewrite andb_false_r.
  - rewrite !len_cons, len_nil.
    destruct (Z.ltb_spec (len pre + 2) (len pre + (0 + 1))); [lia|].
    now rewrite andb_false_r.
  - rewrite !len_cons, len_nil.
    destruct (Z.ltb_spec (len pre + 2) (len pre + (0 + 1 + 1))); [lia|].
    now rewrite andb_false_r.
  - rewrite !len_cons. pose proof (len_nonneg rest).
    destruct (Z.ltb_spec (len pre + 2) (len pre + (len rest + 1 + 1 + 1)));
      [|lia].
    rewrite andb_true_r. cbn [scan].
    destruct (len sats <? max_sats); [|reflexivity].
    rewrite loop_body_group. cbn [bind].
    replace (pre ++ a :: b :: c :: rest) with ((pre ++ [a; b; c]) ++ rest)
      by (now rewrite <- app_assoc).
    replace (len pre + 3) with (len (pre ++ [a; b; c]))
      by (rewrite len_app; reflexivity).
    apply IH. simpl in Hfuel. lia.
Qed.

Lemma load_loop_scan (lines : list pystr) (max_sats : Z) :
  load_loop lines max_sats = Ok (scan lines max_sats [] 0).
Proof.
  unfold load_loop. apply (while_loop_scan (S (length lines)) [] lines). lia.
Qed.

Lemma scan_satellites (max_sats : Z) (rest : list pystr) :
  forall (sats : list EarthSatellite) (i : Z),
    satellites (scan rest max_sats sats i) =
    sats ++ firstn (Z.to_nat (max_sats - len sats))
              (spec_records (spec_groups rest)).
Proof.
  induction rest as [| a | a b | a b c rest IH] using list_ind3; intros sats j;
    cbn [scan spec_groups spec_records satellites];
    try (now rewrite firstn_nil, app_nil_r).
  destruct (Z.ltb_spec (len sats) max_sats) as [Hlt|Hge].
  - rewrite IH. destruct (spec_accept (a, b, c)) as [sat|].
    + rewrite len_app, len_cons, len_nil, <- app_assoc.
      replace (Z.to_nat (max_sats - len sats))
        with (S (Z.to_nat (max_sats - (len sats + (0 + 1))))) by lia.
      reflexivity.
    + reflexivity.
  - cbn [satellites].
    replace (Z.to_nat (max_sats - len sats)) with O by lia.
    now rewrite app_nil_r.
Qed.

(** The parser refines its specification. *)
Lemma load_loop_spec (lines : list pystr) (max_sats : Z) :
  exists st, load_loop lines max_sats = Ok st /\
             satellites st = spec_parse lines max_sats.
Proof.
  exists (scan lines max_sats [] 0). split; [apply load_loop_scan|].
  rewrite scan_satellites. unfold spec_parse. rewrite len_nil, Z.sub_0_r.
  reflexivity.
Qed.

Lemma load_satellites_text_spec (text : pystr) (max_sats : Z) :
  load_satellites_text text max_sats =
  Ok (spec_parse (splitlines text) max_sats).
Proof.
  unfold load_satellites_text.
  destruct (load_loop_spec (splitlines text) max_sats) as (st & -> & <-).
  reflexivity.
Qed.

(** With a response that is not an error, [load_satellites] is the parser
    on the text of the response. *)
Lemma load_satellites_response (requests_get : pystr -> outcome Response)
    (url : pystr) (max_sats : Z) (response : Response) :
  requests_get url = Ok response ->
  raise_for_status response = Ok tt ->
  load_satellites requests_get url max_sats =
  load_satellites_text (text response) max_sats.
Proof.
  intros Hget Hstatus. unfold load_satellites. rewrite Hget. cbn [bind].
  rewrite Hstatus. reflexivity.
Qed.

(** ** The specification's groups are positional *)

Lemma short_nth_error {A : Type} (l : list A) (n : nat) (x : A) :
  nth_error l n = Some x -> (n < length l)%nat.
Proof. intros H. apply nth_error_Some. congruence. Qed.

Lemma spec_groups_nth (lines : list pystr) :
  forall (k : nat) (a b c : pystr),
    nth_error (spec_groups lines) k = Some (a, b, c) <->
    nth_error lines (3 * k) = Some a /\
    nth_error lines (3 * k + 1) = Some b /\
    nth_error lines (3 * k + 2) = Some c.
Proof.
  induction lines as [| x | x y | x y z rest IH] using list_ind3;
    intros k a b c.
  - cbn [spec_groups]. split; [destruct k; discriminate|].
    intros (H & _). apply short_nth_error in H. simpl in H. lia.
  - cbn [spec_groups]. split; [destruct k; discriminate|].
    intros (_ & H & _). apply short_nth_error in H. simpl in H. lia.
  - cbn [spec_groups]. split; [destruct k; discriminate|].
    intros (_ & _ & H). apply short_nth_error in H. simpl in H. lia.
  - cbn [spec_groups]. destruct k as [|k].
    + cbn [Nat.mul Nat.add nth_error]. split.
      * intros [= -> -> ->]. auto.
      * intros ([= ->] & [= ->] & [= ->]). reflexivity.
    + replace (3 * S k)%nat with (S (S (S (3 * k)))) by lia.
      replace (S (S (S (3 * k))) + 1)%nat with (S (S (S (3 * k + 1)))) by lia.
      replace (S (S (S (3 * k))) + 2)%nat with (S (S (S (3 * k + 2)))) by lia.
      simpl. apply IH.
Qed.

Lemma spec_groups_flat (gs : list group) : spec_groups (flat_groups gs) = gs.
Proof.
  induction gs as [|[[a b] c] gs IH]; [reflexivity|].
  cbn [flat_groups spec_groups]. now rewrite IH.
Qed.


Lemma spec_groups_shifted (x : pystr) (gs : list group) :
  spec_groups (x :: flat_groups gs) = shifted_groups x gs.
Proof.
  revert x. induction gs as [|[[a b] c] gs IH]; intros x; [reflexivity|].
  cbn [flat_groups shifted_groups]. destruct gs as [|[[a' b'] c'] gs'].
  - reflexivity.
  - cbn [spec_groups]. f_equal. apply IH.
Qed.

Lemma spec_accept_Some (a b c : pystr) (sat : EarthSatellite) :
  spec_accept (a, b, c) = Some sat ->
  sat = mkEarthSatellite (strip b) (strip c) (strip a) /\
  startswith (strip b) (py "1 ") = true /\
  startswith (strip c) (py "2 ") = true.
Proof.
  unfold spec_accept, prefix_check.
  destruct (startswith (strip b) (py "1 ")), (startswith (strip c) (py "2 "));
    simpl; intros [= <-]; auto.
Qed.

Lemma spec_records_In (gs : list group) (sat : EarthSatellite) :
  In sat (spec_records gs) -> exists g, In g gs /\ spec_accept g = Some sat.
Proof.
  induction gs as [|g gs IH]; cbn [spec_records]; [intros []|].
  destruct (spec_accept g) as [sat'|] eqn:E.
  - intros [<-|Hin].
    + exists g. split; [now left|assumption].
    + destruct (IH Hin) as (g' & Hg' & Hacc). exists g'. split; [now right|assumption].
  - intros Hin. destruct (IH Hin) as (g' & Hg' & Hacc).
    exists g'. split; [now right|assumption].
Qed.

Lemma In_firstn {A : Type} (n : nat) (l : list A) (x : A) :
  In x (firstn n l) -> In x l.
Proof.
  intros H. rewrite <- (firstn_skipn n l). apply in_or_app. now left.
Qed.

Lemma spec_parse_length (lines : list pystr) (M : Z) :
  len (spec_parse lines M) <= Z.max 0 M.
Proof.
  unfold spec_parse, len. rewrite length_firstn. lia.
Qed.

(** Every record of the specification's parse comes from a group at a
    position that is a multiple of three, and that group passes the check. *)
Lemma spec_parse_In (lines : list pystr) (M : Z) (sat : EarthSatellite) :
  In sat (spec_parse lines M) ->
  exists (k : nat) (a b c : pystr),
    nth_error lines (3 * k) = Some a /\
    nth_error lines (3 * k + 1) = Some b /\
    nth_error lines (3 * k + 2) = Some c /\
    sat = mkEarthSatellite (strip b) (strip c) (strip a) /\
    startswith (strip b) (py "1 ") = true /\
    startswith (strip c) (py "2 ") = true.
Proof.
  intros Hin. apply In_firstn in Hin.
  destruct (spec_records_In _ _ Hin) as ([[a b] c] & Hg & Hacc).
  destruct (In_nth_error _ _ Hg) as (k & Hk).
  apply spec_groups_nth in Hk. destruct Hk as (Ha & Hb & Hc).
  destruct (spec_accept_Some _ _ _ _ Hacc) as (-> & H1 & H2).
  exists k, a, b, c. auto 10.
Qed.

(** ** The iterations of the loop *)

Lemma loop_body_accept (lines : list pystr) (st : loop_state) :
  loop_body lines st =
  (a <- getitem lines (i st) ;;
   b <- getitem lines (i st + 1) ;;
   c <- getitem lines (i st + 2) ;;
   Ok (mkLoop (satellites st ++ match spec_accept (a, b, c) with
                                | Some sat => [sat]
                                | None => []
                                end) (i st + 3))).
Proof.
  unfold loop_body.
  destruct (getitem lines (i st)) as [a| |]; try reflexivity.
  destruct (getitem lines (i st + 1)) as [b| |]; try reflexivity.
  destruct (getitem lines (i st + 2)) as [c| |]; try reflexivity.
  cbn [bind]. unfold spec_accept, prefix_check.
  destruct (startswith (strip b) (py "1 ") && startswith (strip c) (py "2 "));
    [reflexivity|now rewrite app_nil_r].
Qed.

Lemma loop_step_advance (lines : list pystr) (M : Z) (st st' : loop_state) :
  loop_step lines M st st' ->
  i st' = i st + 3 /\
  exists a b c,
    getitem lines (i st) = Ok a /\
    getitem lines (i st + 1) = Ok b /\
    getitem lines (i st + 2) = Ok c /\
    satellites st' =
      satellites st ++ match spec_accept (a, b, c) with
                       | Some sat => [sat]
                       | None => []
                       end.
Proof.
  intros [st0 st1 _ Hbody]. rewrite loop_body_accept in Hbody.
  destruct (getitem lines (i st0)) as [a| |]; try discriminate.
  destruct (getitem lines (i st0 + 1)) as [b| |]; try discriminate.
  destruct (getitem lines (i st0 + 2)) as [c| |]; try discriminate.
  cbn [bind] in Hbody. assert (Hst : st1 = mkLoop
    (satellites st0 ++ match spec_accept (a, b, c) with
                       | Some sat => [sat]
                       | None => []
                       end) (i st0 + 3)) by congruence.
  rewrite Hst. cbn [i satellites]. split; [reflexivity|].
  exists a, b, c. repeat split.
Qed.

Lemma loop_steps_index (lines : list pystr) (M : Z) (k : nat)
    (st st' : loop_state) :
  loop_steps lines M k st st' -> i st' = i st + 3 * Z.of_nat k.
Proof.
  induction 1 as [st|k st st1 st2 Hstep _ IH]; [lia|].
  apply loop_step_advance in Hstep. destruct Hstep as (Hi & _). lia.
Qed.



Lemma while_loop_steps (fuel : nat) (lines : list pystr) (M : Z) :
  forall st st' : loop_state,
    while_loop fuel lines M st = Ok st' ->
    exists k : nat, loop_steps lines M k st st' /\ loop_cond lines M st' = false.
Proof.
  induction fuel as [|fuel IH]; intros st st'; cbn [while_loop]; [discriminate|].
  destruct (loop_cond lines M st) eqn:Hcond.
  - destruct (loop_body lines st) as [st1| |] eqn:Hbody; try discriminate.
    cbn [bind]. intros Hrest. destruct (IH _ _ Hrest) as (k & Hsteps & Hend).
    exists (S k). split; [|assumption].
    apply loop_steps_S with st1; [now constructor|assumption].
  - intros [= <-]. exists O. split; [constructor|assumption].
Qed.

Lemma loop_steps_within (lines : list pystr) (M : Z) (k : nat)
    (st st' : loop_state) :
  loop_steps lines M k st st' -> i st <= len lines -> i st' <= len lines.
Proof.
  induction 1 as [st|k st st1 st2 Hstep _ IH]; [auto|]. intros _. apply IH.
  destruct (loop_step_advance _ _ _ _ Hstep) as (Hi & _).
  destruct Hstep as [st st1 Hcond _]. unfold loop_cond in Hcond.
  apply andb_prop in Hcond. destruct Hcond as (_ & Hcond).
  apply Z.ltb_lt in Hcond. lia.
Qed.



(** The loop always ends, in a state reached by iterations of the body in
    which the condition no longer holds. *)
Lemma load_loop_total (lines : list pystr) (M : Z) :
  exists (st : loop_state) (k : nat),
    load_loop lines M = Ok st /\
    satellites st = spec_parse lines M /\
    loop_steps lines M k (mkLoop [] 0) st /\
    loop_cond lines M st = false /\
    i st = 3 * Z.of_nat k /\
    3 * Z.of_nat k <= len lines.
Proof.
  destruct (load_loop_spec lines M) as (st & Hload & Hsats).
  destruct (while_loop_steps _ _ _ _ _ Hload) as (k & Hsteps & Hend).
  exists st, k. repeat split; try assumption.
  - apply loop_steps_index in Hsteps. cbn [i] in Hsteps. lia.
  - pose proof (loop_steps_index _ _ _ _ _ Hsteps) as Hi.
    pose proof (loop_steps_within _ _ _ _ _ Hsteps (len_nonneg lines)) as Hle.
    cbn [i] in Hi. lia.
Qed.

(** ** Shifted groups *)

Lemma shifted_groups_In (gs : list group) :
  forall (x : pystr) (g : group),
    In g (shifted_groups x gs) ->
    exists (j : nat) (prev a b c : pystr),
      g = (prev, a, b) /\ nth_error gs j = Some (a, b, c).
Proof.
  induction gs as [|[[a b] c] gs IH]; intros x g; cbn [shifted_groups];
    [intros []|].
  intros [<-|Hin].
  - exists O, x, a, b, c. split; reflexivity.
  - destruct (IH _ _ Hin) as (j & prev & a' & b' & c' & -> & Hj).
    exists (S j), prev, a', b', c'. split; [reflexivity|exact Hj].
Qed.

Lemma shifted_groups_rejected (gs : list group) :
  forall x : pystr,
    Forall (fun g : group => startswith (strip (fst (fst g))) (py "1 ") = false) gs ->
    spec_records (shifted_groups x gs) = [].
Proof.
  induction gs as [|[[a b] c] gs IH]; intros x Hall; [reflexivity|].
  inversion Hall as [|? ? Ha Hrest]; subst. cbn [fst] in Ha.
  cbn [shifted_groups spec_records spec_accept]. unfold prefix_check.
  rewrite Ha. cbn [andb]. now apply IH.
Qed.

(** ** Lines and trimming *)

Lemma splitlines_from_line (l : pystr) :
  forall (cur rest : pystr),
    no_linebreak l = true ->
    splitlines_from cur (l ++ LF :: rest) =
    (rev cur ++ l) :: splitlines_from [] rest.
Proof.
  induction l as [|c l IH]; intros cur rest Hl.
  - cbn [app splitlines_from]. rewrite app_nil_r.
    change (is_linebreak LF) with true. cbv iota.
    destruct rest; reflexivity.
  - cbn [no_linebreak forallb] in Hl. apply andb_prop in Hl.
    destruct Hl as (Hc & Hl). apply negb_true_iff in Hc.
    cbn [app splitlines_from]. rewrite Hc. rewrite IH by exact Hl.
    cbn [rev]. now rewrite <- app_assoc.
Qed.

(** A text made of lines that each end with a line feed splits into these
    lines. *)
Lemma splitlines_unlines (lines : list pystr) :
  Forall (fun l => no_linebreak l = true) lines ->
  splitlines (unlines lines) = lines.
Proof.
  unfold splitlines. induction 1 as [|l lines Hl _ IH]; [reflexivity|].
  cbn [unlines]. rewrite splitlines_from_line by exact Hl. now rewrite IH.
Qed.

Lemma existsb_rev {A : Type} (f : A -> bool) (l : list A) :
  existsb f (rev l) = existsb f l.
Proof.
  induction l as [|x l IH]; [reflexivity|].
  cbn [rev existsb]. rewrite existsb_app, IH. cbn [existsb].
  rewrite orb_false_r. apply orb_comm.
Qed.

Lemma lstrip_app (u v : pystr) :
  existsb (fun c => negb (is_space c)) u = true ->
  lstrip (u ++ v) = lstrip u ++ v.
Proof.
  induction u as [|c u IH]; cbn [existsb]; [discriminate|].
  intros H. cbn [app lstrip]. destruct (is_space c); [|reflexivity].
  cbn [negb orb] in H. now apply IH.
Qed.

Lemma lstrip_snoc (u : pystr) (c : codepoint) :
  is_space c = false -> lstrip (u ++ [c]) = lstrip u ++ [c].
Proof.
  intros Hc. induction u as [|x u IH]; cbn [app lstrip].
  - now rewrite Hc.
  - destruct (is_space x); [exact IH|reflexivity].
Qed.

(** Trimming keeps a first character that is not white space. *)
Lemma strip_head (c : codepoint) (rest : pystr) :
  is_space c = false -> exists rest' : pystr, strip (c :: rest) = c :: rest'.
Proof.
  intros Hc. unfold strip, rstrip. cbn [lstrip]. rewrite Hc. cbn [rev].
  rewrite lstrip_snoc by exact Hc. rewrite rev_app_distr. cbn [rev app].
  eexists. reflexivity.
Qed.

(** Trimming keeps a two-character prefix that is followed by some
    character that is not white space. *)
Lemma strip_keeps_prefix (d : codepoint) (rest : pystr) :
  is_space d = false ->
  existsb (fun c => negb (is_space c)) rest = true ->
  startswith (strip (d :: 32 :: rest)) [d; 32] = true.
Proof.
  intros Hd Hrest. unfold strip, rstrip. cbn [lstrip]. rewrite Hd.
  cbn [rev]. rewrite <- app_assoc. rewrite lstrip_app.
  - rewrite rev_app_distr. cbn [app rev startswith].
    now rewrite !Z.eqb_refl.
  - rewrite existsb_rev. exact Hrest.
Qed.

(** An element line followed only by blanks is trimmed to its line number
    and fails the prefix check. *)
Lemma blank_element_line_rejected :
  startswith (py "1   ") (py "1 ") = true /\
  strip (py "1   ") = py "1" /\
  load_satellites_text (unlines [py "SAT A"; py "1   "; py "2 00001"]) 30 = Ok [].
Proof. repeat split. Qed.

(** An indented element line passes the prefix check once trimmed. *)
Lemma indented_element_line_accepted :
  startswith (py "  1 00001U") (py "1 ") = false /\
  load_satellites_text (unlines [py "SAT A"; py "  1 00001U"; py "2 00001"]) 30 =
  Ok [mkEarthSatellite (py "1 00001U") (py "2 00001") (py "SAT A")].
Proof. repeat split. Qed.

(** A line that starts with "1 ", before or after trimming, does not start
    with "2 " after trimming. *)
Lemma element_line1_is_not_line2 (a : pystr) :
  startswith a (py "1 ") = true \/ startswith (strip a) (py "1 ") = true ->
  startswith (strip a) (py "2 ") = false.
Proof.
  intros [Hraw|Htrim].
  - destruct a as [|c rest]; [discriminate|]. cbn [py startswith] in Hraw.
    apply andb_prop in Hraw. destruct Hraw as (Hc & _).
    apply Z.eqb_eq in Hc. cbn in Hc. subst c.
    destruct (strip_head 49 rest eq_refl) as (rest' & ->). reflexivity.
  - destruct (strip a) as [|c rest]; [discriminate|].
    cbn [py startswith] in Htrim. apply andb_prop in Htrim.
    destruct Htrim as (Hc & _). apply Z.eqb_eq in Hc. cbn in Hc. subst c.
    reflexivity.
Qed.

Lemma shifted_groups_well_formed (gs : list group) :
  forall x : pystr,
    Forall (fun g : group =>
              startswith (snd (fst g)) (py "1 ") = true \/
              startswith (strip (snd (fst g))) (py "1 ") = true) gs ->
    spec_records (shifted_groups x gs) = [].
Proof.
  induction gs as [|[[a b] c] gs IH]; intros x Hall; [reflexivity|].
  inversion Hall as [|? ? Hb Hrest]; subst. cbn [fst snd] in Hb.
  cbn [shifted_groups spec_records spec_accept]. unfold prefix_check.
  rewrite (element_line1_is_not_line2 b Hb), andb_false_r. now apply IH.
Qed.

(** ** The parser: bounds, prefixes, skipping, stopping *)

Lemma nth_error_getitem3 {A : Type} (l : list A) (k j : nat) (x : A) :
  nth_error l (3 * k + j) = Some x ->
  getitem l (3 * Z.of_nat k + Z.of_nat j) = Ok x.
Proof.
  intros H. apply getitem_nth_error in H.
  now rewrite Nat2Z.inj_add, Nat2Z.inj_mul in H.
Qed.

(** C1: for every input text and every maximum record count [M], the parser
    returns at most [M] records, and every record it returns is the trimmed
    form of a group of three lines of the input whose trimmed element line 1
    starts with "1 " and whose trimmed element line 2 starts with "2 "; so
    no group failing either prefix check is emitted. *)
Theorem load_satellites_bounded_and_checked (text : pystr) (M : Z) :
  0 <= M ->
  exists sats : list EarthSatellite,
    load_satellites_text text M = Ok sats /\
    len sats <= M /\
    forall sat : EarthSatellite, In sat sats ->
      startswith (sat_line1 sat) (py "1 ") = true /\
      startswith (sat_line2 sat) (py "2 ") = true /\
      exists (k : Z) (raw0 raw1 raw2 : pystr),
        0 <= k /\
        getitem (splitlines text) (3 * k) = Ok raw0 /\
        getitem (splitlines text) (3 * k + 1) = Ok raw1 /\
        getitem (splitlines text) (3 * k + 2) = Ok raw2 /\
        sat = mkEarthSatellite (strip raw1) (strip raw2) (strip raw0).
Proof.
  intros HM. exists (spec_parse (splitlines text) M).
  split; [apply load_satellites_text_spec|]. split.
  - pose proof (spec_parse_length (splitlines text) M). lia.
  - intros sat Hin.
    destruct (spec_parse_In _ _ _ Hin) as (k & a & b & c & Ha & Hb & Hc & -> & H1 & H2).
    cbn [sat_line1 sat_line2]. repeat split; try assumption.
    exists (Z.of_nat k), a, b, c. repeat split.
    + lia.
    + rewrite <- (Nat.add_0_r (3 * k)) in Ha.
      apply nth_error_getitem3 in Ha. now rewrite Z.add_0_r in Ha.
    + now apply (nth_error_getitem3 _ k 1).
    + now apply (nth_error_getitem3 _ k 2).
Qed.

Lemma load_satellites_bounded_and_checked_witness :
  exists sats : list EarthSatellite,
    load_satellites_text
      (unlines [py "ISS (ZARYA)"; py "1 25544U 98067A"; py "2 25544  51.6416"])
      1 = Ok sats /\
    len sats <= 1.
Proof.
  destruct (load_satellites_bounded_and_checked
              (unlines [py "ISS (ZARYA)"; py "1 25544U 98067A";
                        py "2 25544  51.6416"]) 1 ltac:(lia))
    as (sats & Hrun & Hlen & _).
  exists sats. split; assumption.
Defined.

(** With a maximum that is not positive the parser returns nothing. *)
Lemma load_satellites_nothing (text : pystr) (M : Z) :
  M <= 0 -> load_satellites_text text M = Ok [].
Proof.
  intros HM. rewrite load_satellites_text_spec. unfold spec_parse.
  now replace (Z.to_nat M) with O by lia.
Qed.







(** C10: the grouping is positional and never resynchronizes.  For every
    input, the k-th iteration of the loop starts at scan index [3k], reads
    lines [3k], [3k+1] and [3k+2] as its candidate group, and leaves the scan
    index at [3k+3] whether or not the group is accepted; the loop ends
    after at most [len(lines) / 3] iterations.  When one extra line comes
    before a run of three-line groups, the candidates are the shifted
    groups (previous line, name line, element line 1): a record is emitted
    only for a group whose trimmed name line starts with "1 " and whose
    trimmed element line 1 starts with "2 "; nothing is emitted when no
    trimmed name line starts with "1 ", and nothing either when the groups
    are well formed, their element lines 1 starting with "1 ". *)
Theorem load_satellites_positional (text : pystr) (M : Z) :
  (forall (k : nat) (st st' : loop_state),
      loop_steps (splitlines text) M k (mkLoop [] 0) st ->
      loop_step (splitlines text) M st st' ->
      i st = 3 * Z.of_nat k /\
      i st' = 3 * Z.of_nat k + 3 /\
      exists a b c : pystr,
        getitem (splitlines text) (3 * Z.of_nat k) = Ok a /\
        getitem (splitlines text) (3 * Z.of_nat k + 1) = Ok b /\
        getitem (splitlines text) (3 * Z.of_nat k + 2) = Ok c /\
        satellites st' =
          satellites st ++ match spec_accept (a, b, c) with
                           | Some sat => [sat]
                           | None => []
                           end) /\
  (exists (st : loop_state) (k : nat),
      load_loop (splitlines text) M = Ok st /\
      load_satellites_text text M = Ok (satellites st) /\
      loop_steps (splitlines text) M k (mkLoop [] 0) st /\
      3 * Z.of_nat k <= len (splitlines text)) /\
  (forall (x : pystr) (gs : list group),
      splitlines text = x :: flat_groups gs ->
      exists sats : list EarthSatellite,
        load_satellites_text text M = Ok sats /\
        sats = firstn (Z.to_nat M) (spec_records (shifted_groups x gs)) /\
        (forall sat : EarthSatellite, In sat sats ->
           exists (j : nat) (prev a b c : pystr),
             nth_error gs j = Some (a, b, c) /\
             startswith (strip a) (py "1 ") = true /\
             startswith (strip b) (py "2 ") = true /\
             sat = mkEarthSatellite (strip a) (strip b) (strip prev)) /\
        (Forall (fun g : group =>
                   startswith (strip (fst (fst g))) (py "1 ") = false) gs ->
         sats = []) /\
        (Forall (fun g : group =>
                   startswith (snd (fst g)) (py "1 ") = true \/
                   startswith (strip (snd (fst g))) (py "1 ") = true) gs ->
         sats = [])).
Proof.
  split; [|split].
  - intros k st st' Hsteps Hstep.
    apply loop_steps_index in Hsteps. cbn [i] in Hsteps.
    destruct (loop_step_advance _ _ _ _ Hstep) as (Hi & a & b & c & Ha & Hb & Hc & Hs).
    rewrite Z.add_0_l in Hsteps. rewrite Hsteps in *.
    repeat split; try assumption. exists a, b, c. auto.
  - destruct (load_loop_total (splitlines text) M)
      as (st & k & Hload & Hsats & Hsteps & _ & _ & Hk).
    exists st, k. repeat split; try assumption.
    rewrite load_satellites_text_spec. now rewrite Hsats.
  - intros x gs Hlines.
    exists (firstn (Z.to_nat M) (spec_records (shifted_groups x gs))).
    split; [|split; [reflexivity|split; [|split]]].
    + rewrite load_satellites_text_spec, Hlines. unfold spec_parse.
      now rewrite spec_groups_shifted.
    + intros sat Hin. apply In_firstn in Hin.
      destruct (spec_records_In _ _ Hin) as (g & Hg & Hacc).
      destruct (shifted_groups_In _ _ _ Hg) as (j & prev & a & b & c & -> & Hj).
      destruct (spec_accept_Some _ _ _ _ Hacc) as (-> & H1 & H2).
      exists j, prev, a, b, c. auto.
    + intros Hall. rewrite shifted_groups_rejected by exact Hall.
      apply firstn_nil.
    + intros Hall. rewrite shifted_groups_well_formed by exact Hall.
      apply firstn_nil.
Qed.

Lemma load_satellites_positional_witness :
  (exists a : pystr,
     getitem (splitlines demo_shifted_text) (3 * Z.of_nat 0) = Ok a) /\
  load_satellites_text demo_shifted_text 30 = Ok [].
Proof.
  destruct (load_satellites_positional demo_shifted_text 30)
    as (Hiter & _ & Hshift).
  split.
  - destruct (Hiter O (mkLoop [] 0) (mkLoop [] 3)
                (loop_steps_O (splitlines demo_shifted_text) 30 (mkLoop [] 0))
                (loop_step_intro (splitlines demo_shifted_text) 30
                   (mkLoop [] 0) (mkLoop [] 3) eq_refl eq_refl))
      as (_ & _ & a & _ & _ & Ha & _).
    exists a. exact Ha.
  - destruct (Hshift (py "extra line")
                [(py "SAT A", py "1 00001U", py "2 00001");
                 (py "SAT B", py "1 00002U", py "2 00002")] eq_refl)
      as (sats & Hrun & _ & _ & _ & Hnone).
    rewrite Hrun. f_equal. apply Hnone.
    repeat constructor.
Defined.

(** ** Loops over sequences and ranges *)

Lemma range_up_length (n : nat) (start step : Z) :
  length (range_up n start step) = n.
Proof.
  revert start. induction n as [|n IH]; intros start; [reflexivity|].
  cbn [range_up length]. now rewrite IH.
Qed.

Lemma range_up_nth (n : nat) :
  forall (start step : Z) (k : nat),
    (k < n)%nat ->
    nth_error (range_up n start step) k = Some (start + Z.of_nat k * step).
Proof.
  induction n as [|n IH]; intros start step k Hk; [lia|].
  destruct k as [|k]; cbn [range_up nth_error].
  - f_equal. lia.
  - rewrite IH by lia. f_equal. lia.
Qed.

Lemma range_up_In (n : nat) (start step x : Z) :
  In x (range_up n start step) ->
  exists k : nat, (k < n)%nat /\ x = start + Z.of_nat k * step.
Proof.
  intros Hin. destruct (In_nth_error _ _ Hin) as (k & Hk).
  assert (Hlt : (k < n)%nat).
  { apply short_nth_error in Hk. now rewrite range_up_length in Hk. }
  exists k. split; [assumption|]. rewrite range_up_nth in Hk by assumption.
  congruence.
Qed.

Lemma len_range (n : Z) : len (range n) = Z.max 0 n.
Proof. unfold range, len. rewrite range_up_length. lia. Qed.

Lemma getitem_range (n k : Z) : 0 <= k < n -> getitem (range n) k = Ok k.
Proof.
  intros Hk. rewrite <- (Z2Nat.id k) at 1 by lia. apply getitem_nth_error.
  unfold range. rewrite range_up_nth by lia. f_equal. lia.
Qed.

Lemma In_range (n x : Z) : In x (range n) -> 0 <= x < n.
Proof.
  unfold range. intros Hin. apply range_up_In in Hin.
  destruct Hin as (k & Hk & ->). lia.
Qed.

Lemma enumerate_from_nth {A : Type} (l : list A) :
  forall (start : Z) (k : nat) (x : A),
    nth_error l k = Some x ->
    nth_error (enumerate_from start l) k = Some (start + Z.of_nat k, x).
Proof.
  induction l as [|y l IH]; intros start k x; [destruct k; discriminate|].
  destruct k as [|k]; cbn [enumerate_from nth_error].
  - intros [= ->]. do 2 f_equal. lia.
  - intros H. rewrite (IH _ _ _ H). do 2 f_equal. lia.
Qed.

Lemma enumerate_from_In {A : Type} (l : list A) :
  forall (start j : Z) (x : A),
    In (j, x) (enumerate_from start l) ->
    exists k : nat, j = start + Z.of_nat k /\ nth_error l k = Some x.
Proof.
  induction l as [|y l IH]; intros start j x; cbn [enumerate_from]; [intros []|].
  intros [[= <- <-]|Hin].
  - exists O. split; [lia|reflexivity].
  - destruct (IH _ _ _ Hin) as (k & -> & Hk). exists (S k). split; [lia|exact Hk].
Qed.

Lemma enumerate_from_length {A : Type} (l : list A) (start : Z) :
  length (enumerate_from start l) = length l.
Proof.
  revert start. induction l as [|y l IH]; intros start; [reflexivity|].
  cbn [enumerate_from length]. now rewrite IH.
Qed.

(** A loop whose body never raises builds one result per element, in
    order. *)
Lemma for_each_Forall2 {A B : Type} (f : A -> outcome B) (l : list A) :
  forall ys : list B,
    for_each f l = Ok ys <-> Forall2 (fun x y => f x = Ok y) l ys.
Proof.
  induction l as [|x l IH]; intros ys; cbn [for_each].
  - split.
    + intros [= <-]. constructor.
    + intros H. inversion H. reflexivity.
  - split.
    + destruct (f x) as [y| |] eqn:Hfx; try discriminate. cbn [bind].
      destruct (for_each f l) as [ys'| |] eqn:Hrest; try discriminate.
      cbn [bind]. intros [= <-]. constructor; [assumption|]. now apply IH.
    + intros H. inversion H as [|? y ? ys' Hfx Hrest]; subst.
      rewrite Hfx. cbn [bind]. apply IH in Hrest. rewrite Hrest. reflexivity.
Qed.

Lemma for_each_total {A B : Type} (f : A -> outcome B) (l : list A) :
  (forall x, In x l -> exists y, f x = Ok y) ->
  exists ys : list B, for_each f l = Ok ys.
Proof.
  induction l as [|x l IH]; intros Hall; [now exists []|].
  destruct (Hall x (or_introl eq_refl)) as (y & Hy).
  destruct IH as (ys & Hys); [intros x' Hx'; apply Hall; now right|].
  exists (y :: ys). cbn [for_each]. rewrite Hy, Hys. reflexivity.
Qed.

Lemma for_each_length {A B : Type} (f : A -> outcome B) (l : list A)
    (ys : list B) :
  for_each f l = Ok ys -> len ys = len l.
Proof.
  intros H. apply for_each_Forall2 in H. unfold len.
  now rewrite (Forall2_length H).
Qed.

Lemma for_each_nth {A B : Type} (f : A -> outcome B) (l : list A)
    (ys : list B) :
  for_each f l = Ok ys ->
  forall (k : nat) (x : A),
    nth_error l k = Some x ->
    exists y : B, f x = Ok y /\ nth_error ys k = Some y.
Proof.
  intros H. apply for_each_Forall2 in H.
  induction H as [|x0 y0 l ys Hxy _ IH]; intros k x Hk;
    [destruct k; discriminate|].
  destruct k as [|k]; cbn [nth_error] in *.
  - injection Hk as <-. now exists y0.
  - now apply IH.
Qed.

Lemma for_each_ext {A B : Type} (f g : A -> outcome B) (l : list A) :
  (forall x, In x l -> f x = g x) -> for_each f l = for_each g l.
Proof.
  induction l as [|x l IH]; intros Hext; [reflexivity|].
  cbn [for_each]. rewrite (Hext x (or_introl eq_refl)).
  rewrite IH; [reflexivity|]. intros x' Hx'. apply Hext. now right.
Qed.

Lemma for_each_In {A B : Type} (f : A -> outcome B) (l : list A)
    (ys : list B) (y : B) :
  for_each f l = Ok ys -> In y ys -> exists x : A, In x l /\ f x = Ok y.
Proof.
  intros H. apply for_each_Forall2 in H.
  induction H as [|x0 y0 l ys Hxy _ IH]; [intros []|].
  intros [<-|Hin].
  - exists x0. split; [now left|assumption].
  - destruct (IH Hin) as (x & Hx & Hfx). exists x. split; [now right|assumption].
Qed.

(** A loop over [range(n)]. *)
Lemma for_each_range {B : Type} (f : Z -> outcome B) (n : Z) (ys : list B) :
  for_each f (range n) = Ok ys ->
  len ys = Z.max 0 n /\
  forall k : Z, 0 <= k < n -> exists y : B, f k = Ok y /\ getitem ys k = Ok y.
Proof.
  intros H. split.
  - rewrite (for_each_length _ _ _ H). apply len_range.
  - intros k Hk.
    destruct (for_each_nth _ _ _ H (Z.to_nat k) k) as (y & Hy & Hnth).
    + apply getitem_Ok_nth_error; [lia|]. now apply getitem_range.
    + exists y. split; [assumption|].
      rewrite <- (Z2Nat.id k) by lia. now apply getitem_nth_error.
Qed.

(** ** The replicated palette *)

Lemma list_mul_length {A : Type} (l : list A) (n : Z) :
  len (list_mul l n) = len l * Z.max 0 n.
Proof.
  unfold list_mul. rewrite <- (Z2Nat.id (Z.max 0 n)) by lia.
  replace (Z.to_nat n) with (Z.to_nat (Z.max 0 n)) by lia.
  induction (Z.to_nat (Z.max 0 n)) as [|m IH]; cbn [repeat concat].
  - rewrite len_nil. lia.
  - rewrite len_app, IH. lia.
Qed.

Lemma getitem_list_mul {A : Type} (l : list A) (n k : Z) :
  0 <= k < len l * n ->
  getitem (list_mul l n) k = getitem l (k mod len l).
Proof.
  unfold list_mul. intros Hk. pose proof (len_nonneg l) as Hl.
  assert (Hpos : 0 < len l).
  { destruct (Z.eq_dec (len l) 0) as [E|E]; [rewrite E in Hk|]; lia. }
  assert (Hn : 0 <= n) by nia.
  rewrite <- (Z2Nat.id n) in Hk by lia. revert k Hk.
  induction (Z.to_nat n) as [|m IH]; intros k Hk; [lia|].
  cbn [repeat concat]. destruct (Z_lt_ge_dec k (len l)) as [Hlt|Hge].
  - rewrite getitem_app_l by lia. now rewrite Z.mod_small by lia.
  - replace k with (len l + (k - len l)) at 1 by lia.
    rewrite getitem_app_r by lia. rewrite IH by lia.
    f_equal. replace k with ((k - len l) + 1 * len l) at 2 by lia.
    now rewrite Z.mod_add by lia.
Qed.

Lemma len_colors : len colors = 10 * (MAX_SATS / 10 + 1).
Proof. reflexivity. Qed.

Lemma getitem_colors (k : Z) :
  0 <= k < 40 ->
  exists color : pystr,
    getitem colors k = Ok color /\ getitem palette (k mod 10) = Ok color.
Proof.
  intros Hk. unfold colors.
  rewrite getitem_list_mul by (change (len palette * (MAX_SATS / 10 + 1)) with 40; lia).
  change (len palette) with 10.
  destruct (getitem_in_range palette (k mod 10)) as (color & Hcolor).
  - change (len palette) with 10. apply Z.mod_pos_bound. lia.
  - exists color. split; assumption.
Qed.

(** ** Position arrays *)

Lemma has_shape_rows (a : ndarray) (n : Z) :
  has_shape a 3 n = true ->
  exists r0 r1 r2 : list float,
    a = [r0; r1; r2] /\ len r0 = n /\ len r1 = n /\ len r2 = n.
Proof.
  unfold has_shape. intros H. apply andb_prop in H. destruct H as (Hrows & Hcols).
  apply Z.eqb_eq in Hrows. unfold len in Hrows.
  destruct a as [|r0 [|r1 [|r2 [|r3 a]]]]; simpl in Hrows; try lia.
  cbn [forallb] in Hcols.
  apply andb_prop in Hcols. destruct Hcols as (H0 & Hcols).
  apply andb_prop in Hcols. destruct Hcols as (H1 & Hcols).
  apply andb_prop in Hcols. destruct Hcols as (H2 & _).
  apply Z.eqb_eq in H0, H1, H2. exists r0, r1, r2. auto.
Qed.

Lemma has_shape_column (a : ndarray) (n c : Z) :
  has_shape a 3 n = true -> 0 <= c < n ->
  exists x y z : float,
    getitem2 a 0 c = Ok x /\ getitem2 a 1 c = Ok y /\ getitem2 a 2 c = Ok z.
Proof.
  intros Hshape Hc.
  destruct (has_shape_rows _ _ Hshape) as (r0 & r1 & r2 & -> & H0 & H1 & H2).
  destruct (getitem_in_range r0 c) as (x & Hx); [lia|].
  destruct (getitem_in_range r1 c) as (y & Hy); [lia|].
  destruct (getitem_in_range r2 c) as (z & Hz); [lia|].
  exists x, y, z. unfold getitem2.
  change (getitem [r0; r1; r2] 0) with (Ok r0).
  change (getitem [r0; r1; r2] 1) with (Ok r1).
  change (getitem [r0; r1; r2] 2) with (Ok r2).
  cbn [bind]. auto.
Qed.

(** ** The export loop *)

Lemma export_loop_spec (frames : list Frame) (static : list trace)
    (frame_nums : list Z) :
  forall frame_idx : Z,
    (forall x, In x frame_nums -> 0 <= x < len frames) ->
    exists written : list WriteImage,
      export_loop frames static frame_nums frame_idx = Ok written /\
      length written = length frame_nums /\
      forall (j : nat) (x : Z),
        nth_error frame_nums j = Some x ->
        exists frame : Frame,
          getitem frames x = Ok frame /\
          nth_error written j =
            Some (mkWriteImage (frame_path (frame_idx + Z.of_nat j))
                    (static ++ frame_data frame) 1280 720 1).
Proof.
  induction frame_nums as [|x0 frame_nums IH]; intros frame_idx Hin.
  - exists []. repeat split. intros j x Hj. destruct j; discriminate.
  - destruct (getitem_in_range frames x0) as (frame0 & Hframe0);
      [apply Hin; now left|].
    destruct (IH (frame_idx + 1)) as (more & Hmore & Hlen & Hnth);
      [intros x Hx; apply Hin; now right|].
    eexists. cbn [export_loop]. rewrite Hframe0. cbn [bind]. rewrite Hmore.
    cbn [bind]. split; [reflexivity|]. split; [cbn [length]; now rewrite Hlen|].
    intros j x Hj. destruct j as [|j]; cbn [nth_error] in *.
    + injection Hj as <-. exists frame0. split; [assumption|].
      now rewrite Z.add_0_r.
    + destruct (Hnth j x Hj) as (frame & Hframe & Hw). exists frame.
      split; [assumption|]. rewrite Hw. do 3 f_equal. lia.
Qed.

Lemma range_up_sorted (n : nat) (start step : Z) :
  0 < step -> StronglySorted Z.lt (range_up n start step).
Proof.
  intros Hstep. revert start. induction n as [|n IH]; intros start;
    cbn [range_up]; constructor; [apply IH|].
  apply Forall_forall. intros x Hin. apply range_up_In in Hin.
  destruct Hin as (k & _ & ->). nia.
Qed.

Lemma range_up_NoDup (n : nat) (start step : Z) :
  0 < step -> NoDup (range_up n start step).
Proof.
  intros Hstep. revert start. induction n as [|n IH]; intros start;
    cbn [range_up]; constructor; [|apply IH].
  intros Hin. apply range_up_In in Hin. destruct Hin as (k & _ & Hk). nia.
Qed.

(** ** The script after parsing *)

Section ScriptProperties.

Variable Time : Type.
Variable ts_utc : Z -> Z -> Z -> Time.
Variable time_add : Time -> float -> Time.
Variable ts_linspace : Time -> Time -> Z -> Time.
Variable position_km : EarthSatellite -> Time -> ndarray.
Variables x_earth y_earth z_earth : ndarray.

Local Abbreviation grid := (t Time ts_utc time_add ts_linspace).
Local Abbreviation positions_of sats := (map (fun sat => position_km sat grid) sats).
Local Abbreviation names_of sats :=
  (map (fun sat : EarthSatellite => slice_to (sat_name sat) 20) sats).
Local Abbreviation the_earth := (earth x_earth y_earth z_earth).
Local Abbreviation the_render :=
  (render Time ts_utc time_add ts_linspace position_km x_earth y_earth z_earth).
Local Abbreviation the_script :=
  (script Time ts_utc time_add ts_linspace position_km x_earth y_earth z_earth).

(** The propagator answers with one column per time of the grid. *)
Hypothesis position_shape :
  forall sat : EarthSatellite,
    has_shape (position_km sat grid) 3 NUM_FRAMES = true.

Lemma marker_update_ok (sats : list EarthSatellite) (frame_num k : Z)
    (sat : EarthSatellite) :
  len sats <= MAX_SATS ->
  0 <= frame_num < NUM_FRAMES ->
  0 <= k ->
  getitem sats k = Ok sat ->
  exists (x y z : float) (color : pystr),
    getitem (positions_of sats) k = Ok (position_km sat grid) /\
    getitem2 (position_km sat grid) 0 frame_num = Ok x /\
    getitem2 (position_km sat grid) 1 frame_num = Ok y /\
    getitem2 (position_km sat grid) 2 frame_num = Ok z /\
    getitem colors k = Ok color /\
    getitem palette (k mod 10) = Ok color /\
    marker_update (positions_of sats) (names_of sats) frame_num k =
    Ok (Scatter3d [x] [y] [z] (py "markers") None (Some (mkMarker 8 color))
          (slice_to (sat_name sat) 20) None).
Proof.
  intros Hmax Hframe Hk Hsat.
  destruct (has_shape_column _ _ frame_num (position_shape sat) Hframe)
    as (x & y & z & Hx & Hy & Hz).
  assert (Hlt : k < len sats).
  { destruct (Z_lt_ge_dec k (len sats)) as [?|Hge]; [assumption|].
    rewrite getitem_out_of_range in Hsat by lia. discriminate. }
  destruct (getitem_colors k) as (color & Hcolor & Hpal);
    [unfold MAX_SATS in Hmax; lia|].
  exists x, y, z, color.
  pose proof (getitem_map (fun sat => position_km sat grid) _ _ _ Hsat Hk) as Hpos.
  pose proof (getitem_map (fun sat : EarthSatellite => slice_to (sat_name sat) 20)
                _ _ _ Hsat Hk) as Hname.
  repeat (split; [assumption|]).
  unfold marker_update. rewrite Hpos. cbn [bind]. rewrite Hx. cbn [bind].
  rewrite Hy. cbn [bind]. rewrite Hz. cbn [bind]. rewrite Hcolor. cbn [bind].
  erewrite bind_Ok by exact Hname. reflexivity.
Qed.

Lemma orbit_trace_ok (sats : list EarthSatellite) (k : Z) (sat : EarthSatellite) :
  len sats <= MAX_SATS ->
  0 <= k ->
  getitem sats k = Ok sat ->
  exists (xs ys zs : list float) (color : pystr),
    position_km sat grid = [xs; ys; zs] /\
    getitem colors k = Ok color /\
    getitem palette (k mod 10) = Ok color /\
    orbit_trace (names_of sats) (k, position_km sat grid) =
    Ok (Scatter3d xs ys zs (py "lines") (Some (mkLine color 3)) None
          (slice_to (sat_name sat) 20) (Some (py "name"))).
Proof.
  intros Hmax Hk Hsat.
  destruct (has_shape_rows _ _ (position_shape sat))
    as (xs & ys & zs & Hrows & _).
  assert (Hlt : k < len sats).
  { destruct (Z_lt_ge_dec k (len sats)) as [?|Hge]; [assumption|].
    rewrite getitem_out_of_range in Hsat by lia. discriminate. }
  destruct (getitem_colors k) as (color & Hcolor & Hpal);
    [unfold MAX_SATS in Hmax; lia|].
  exists xs, ys, zs, color.
  pose proof (getitem_map (fun sat : EarthSatellite => slice_to (sat_name sat) 20)
                _ _ _ Hsat Hk) as Hname.
  repeat (split; [assumption|]).
  unfold orbit_trace. rewrite Hrows.
  change (getitem [xs; ys; zs] 0) with (Ok xs).
  change (getitem [xs; ys; zs] 1) with (Ok ys).
  change (getitem [xs; ys; zs] 2) with (Ok zs).
  cbn [bind]. rewrite Hcolor. cbn [bind].
  erewrite bind_Ok by exact Hname. reflexivity.
Qed.

(** The two loops that place markers run the same body at the first
    time of the grid. *)
Lemma initial_marker_is_first_update (positions : list ndarray)
    (names : list pystr) (k : Z) :
  initial_marker positions names k = marker_update positions names 0 k.
Proof. reflexivity. Qed.

Lemma build_frame_ok (sats : list EarthSatellite) (frame_num : Z) :
  len sats <= MAX_SATS ->
  0 <= frame_num < NUM_FRAMES ->
  exists frame : Frame,
    build_frame sats (positions_of sats) (names_of sats) frame_num = Ok frame.
Proof.
  intros Hmax Hframe. unfold build_frame.
  destruct (for_each_total
              (marker_update (positions_of sats) (names_of sats) frame_num)
              (range (len sats))) as (markers & Hmarkers).
  - intros k Hin. apply In_range in Hin.
    destruct (getitem_in_range sats k Hin) as (sat & Hsat).
    destruct (marker_update_ok sats frame_num k sat Hmax Hframe (proj1 Hin) Hsat)
      as (x & y & z & color & _ & _ & _ & _ & _ & _ & Hm).
    eexists. exact Hm.
  - rewrite Hmarkers. eexists. reflexivity.
Qed.

(** Every stage of the script after parsing succeeds. *)
Lemma render_stages (sats : list EarthSatellite) :
  len sats <= MAX_SATS ->
  exists (orbit_traces initial_markers : list trace) (frames : list Frame)
         (exported : list WriteImage),
    for_each (orbit_trace (names_of sats)) (enumerate (positions_of sats)) =
      Ok orbit_traces /\
    for_each (initial_marker (positions_of sats) (names_of sats))
      (range (len sats)) = Ok initial_markers /\
    for_each (build_frame sats (positions_of sats) (names_of sats))
      (range NUM_FRAMES) = Ok frames /\
    export_loop frames ([the_earth] ++ orbit_traces) (range_up 150 0 2) 0 =
      Ok exported /\
    the_render sats =
      Ok (mkRun sats (start_time Time ts_utc) grid (positions_of sats)
            (names_of sats) orbit_traces initial_markers frames exported).
Proof.
  intros Hmax.
  destruct (for_each_total (orbit_trace (names_of sats))
              (enumerate (positions_of sats))) as (orbit & Horbit).
  { intros [j pos] Hin. apply enumerate_from_In in Hin.
    destruct Hin as (k & -> & Hk). rewrite nth_error_map in Hk.
    destruct (nth_error sats k) as [sat|] eqn:Hsat; [|discriminate].
    injection Hk as <-. rewrite Z.add_0_l.
    destruct (orbit_trace_ok sats (Z.of_nat k) sat Hmax ltac:(lia)
                (getitem_nth_error _ _ _ Hsat))
      as (xs & ys & zs & color & _ & _ & _ & Htrace).
    eexists. exact Htrace. }
  destruct (for_each_total
              (initial_marker (positions_of sats) (names_of sats))
              (range (len sats))) as (initial & Hinitial).
  { intros k Hin. apply In_range in Hin.
    destruct (getitem_in_range sats k Hin) as (sat & Hsat).
    destruct (marker_update_ok sats 0 k sat Hmax ltac:(unfold NUM_FRAMES; lia)
                (proj1 Hin) Hsat)
      as (x & y & z & color & _ & _ & _ & _ & _ & _ & Hm).
    eexists. rewrite initial_marker_is_first_update. exact Hm. }
  destruct (for_each_total
              (build_frame sats (positions_of sats) (names_of sats))
              (range NUM_FRAMES)) as (frames & Hframes).
  { intros k Hin. apply In_range in Hin. now apply build_frame_ok. }
  destruct (export_loop_spec frames ([the_earth] ++ orbit) (range_up 150 0 2) 0)
    as (exported & Hexported & _).
  { intros x Hin. apply range_up_In in Hin. destruct Hin as (k & Hk & ->).
    apply for_each_range in Hframes. destruct Hframes as (Hlen & _).
    rewrite Hlen. unfold NUM_FRAMES. lia. }
  exists orbit, initial, frames, exported.
  repeat (split; [assumption|]).
  unfold render. rewrite Horbit. cbn [bind]. rewrite Hinitial. cbn [bind].
  rewrite Hframes. cbn [bind].
  change (range3 0 NUM_FRAMES 2) with (Ok (range_up 150 0 2)). cbn [bind].
  rewrite Hexported. reflexivity.
Qed.


Variable w : World Time.
Variable response : Response.
Hypothesis fetched : requests_get w STARLINK_URL = Ok response.
Hypothesis status_ok : raise_for_status response = Ok tt.

(** Every stage of the script succeeds on a response that is not an
    error. *)
Lemma script_stages :
  exists (sats : list EarthSatellite) (orbit_traces initial_markers : list trace)
         (frames : list Frame) (exported : list WriteImage),
    load_satellites_text (text response) MAX_SATS = Ok sats /\
    len sats <= MAX_SATS /\
    for_each (orbit_trace (names_of sats)) (enumerate (positions_of sats)) =
      Ok orbit_traces /\
    for_each (initial_marker (positions_of sats) (names_of sats))
      (range (len sats)) = Ok initial_markers /\
    for_each (build_frame sats (positions_of sats) (names_of sats))
      (range NUM_FRAMES) = Ok frames /\
    export_loop frames ([the_earth] ++ orbit_traces) (range_up 150 0 2) 0 =
      Ok exported /\
    the_script w =
      Ok (mkRun sats (start_time Time ts_utc) grid (positions_of sats)
            (names_of sats) orbit_traces initial_markers frames exported).
Proof.
  assert (Hlen : len (spec_parse (splitlines (text response)) MAX_SATS) <= MAX_SATS).
  { pose proof (spec_parse_length (splitlines (text response)) MAX_SATS).
    unfold MAX_SATS in *. lia. }
  destruct (render_stages _ Hlen)
    as (orbit & initial & frames & exported & Ho & Hi & Hf & He & Hrender).
  exists (spec_parse (splitlines (text response)) MAX_SATS),
    orbit, initial, frames, exported.
  split; [apply load_satellites_text_spec|].
  repeat (split; [assumption|]).
  unfold script.
  rewrite (load_satellites_response _ _ _ _ fetched status_ok).
  rewrite load_satellites_text_spec. cbn [bind]. exact Hrender.
Qed.

(** C6: for every time-grid index [k] from 0 to [NUM_FRAMES - 1], the
    animation holds one frame, named after [k], whose marker list has one
    entry per parsed satellite in the order of the satellite list; its i-th
    marker carries the position of the i-th satellite at column [k] of that
    satellite's position array, with the satellite's name and color. *)
Theorem frames_keep_satellite_positions :
  exists run : Run Time,
    the_script w = Ok run /\
    load_satellites_text (text response) MAX_SATS = Ok (run_satellites run) /\
    len (run_frames run) = NUM_FRAMES /\
    forall k : Z, 0 <= k < NUM_FRAMES ->
      exists frame : Frame,
        getitem (run_frames run) k = Ok frame /\
        frame_name frame = str_of_int k /\
        len (frame_data frame) = len (run_satellites run) /\
        forall j : Z, 0 <= j < len (run_satellites run) ->
          exists (sat : EarthSatellite) (pos : ndarray) (x y z : float)
                 (color : pystr),
            getitem (run_satellites run) j = Ok sat /\
            getitem (run_positions run) j = Ok pos /\
            pos = position_km sat (run_t run) /\
            getitem2 pos 0 k = Ok x /\
            getitem2 pos 1 k = Ok y /\
            getitem2 pos 2 k = Ok z /\
            getitem colors j = Ok color /\
            getitem (frame_data frame) j =
              Ok (Scatter3d [x] [y] [z] (py "markers") None
                    (Some (mkMarker 8 color)) (slice_to (sat_name sat) 20) None).
Proof.
  destruct script_stages
    as (sats & orbit & initial & frames & exported
        & Hload & Hmax & _ & _ & Hframes & _ & Hscript).
  eexists. split; [exact Hscript|]. cbn [run_satellites run_frames run_positions run_t].
  split; [exact Hload|].
  apply for_each_range in Hframes. destruct Hframes as (Hlen & Hnth).
  split; [rewrite Hlen; reflexivity|].
  intros k Hk. destruct (Hnth k Hk) as (frame & Hbuild & Hframe).
  exists frame. split; [exact Hframe|].
  unfold build_frame in Hbuild.
  destruct (for_each (marker_update (positions_of sats) (names_of sats) k)
              (range (len sats))) as [markers| |] eqn:Hmarkers; try discriminate.
  cbn [bind] in Hbuild. injection Hbuild as <-. cbn [frame_name frame_data].
  split; [reflexivity|].
  apply for_each_range in Hmarkers. destruct Hmarkers as (Hmlen & Hmnth).
  pose proof (len_nonneg sats) as Hnn.
  split; [rewrite Hmlen; lia|].
  intros j Hj. destruct (getitem_in_range sats j Hj) as (sat & Hsat).
  destruct (marker_update_ok sats k j sat Hmax Hk (proj1 Hj) Hsat)
    as (x & y & z & color & Hpos & Hx & Hy & Hz & Hcolor & _ & Hm).
  destruct (Hmnth j Hj) as (m & Hm' & Hgm).
  exists sat, (position_km sat grid), x, y, z, color.
  repeat (split; [assumption || reflexivity|]).
  rewrite Hgm. congruence.
Qed.

(** C7: the initial satellite markers that seed the static scene are the
    marker list of the frame at time-grid index 0: same order, positions,
    names and marker attributes. *)
Theorem initial_markers_are_first_frame :
  exists (run : Run Time) (frame0 : Frame),
    the_script w = Ok run /\
    getitem (run_frames run) 0 = Ok frame0 /\
    frame_data frame0 = run_initial_markers run /\
    len (run_initial_markers run) = len (run_satellites run).
Proof.
  destruct script_stages
    as (sats & orbit & initial & frames & exported
        & Hload & Hmax & _ & Hinitial & Hframes & _ & Hscript).
  apply for_each_range in Hframes. destruct Hframes as (_ & Hnth).
  destruct (Hnth 0 ltac:(unfold NUM_FRAMES; lia)) as (frame0 & Hbuild & Hframe0).
  eexists. exists frame0. split; [exact Hscript|].
  cbn [run_frames run_initial_markers run_satellites].
  split; [exact Hframe0|].
  unfold build_frame in Hbuild.
  rewrite <- (for_each_ext (initial_marker (positions_of sats) (names_of sats)))
    in Hbuild by (intros; apply initial_marker_is_first_update).
  rewrite Hinitial in Hbuild. cbn [bind] in Hbuild. injection Hbuild as <-.
  split; [reflexivity|].
  rewrite (for_each_length _ _ _ Hinitial), len_range.
  pose proof (len_nonneg sats). lia.
Qed.

(** C9: the replicated color list has length [10 * (MAX_SATS // 10 + 1)],
    which is at least [MAX_SATS], so that [colors[k]] is within bounds for
    every satellite index [0 <= k < MAX_SATS] and is the palette entry at
    [k mod 10]; in a run, the orbit trace, the initial marker and every
    frame marker of satellite [k] carry that color. *)
Theorem colors_cycle_through_palette :
  len colors = 10 * (MAX_SATS / 10 + 1) /\
  MAX_SATS <= len colors /\
  (forall k : Z, 0 <= k < MAX_SATS ->
     exists color : pystr,
       getitem colors k = Ok color /\ getitem palette (k mod 10) = Ok color) /\
  exists run : Run Time,
    the_script w = Ok run /\
    forall k : Z, 0 <= k < len (run_satellites run) ->
      k < MAX_SATS /\
      exists (color : pystr) (orbit marker : trace),
        getitem palette (k mod 10) = Ok color /\
        getitem (run_orbit_traces run) k = Ok orbit /\
        trace_color orbit = Some color /\
        getitem (run_initial_markers run) k = Ok marker /\
        trace_color marker = Some color /\
        forall frame : Frame, In frame (run_frames run) ->
          exists update : trace,
            getitem (frame_data frame) k = Ok update /\
            trace_color update = Some color.
Proof.
  split; [reflexivity|]. split; [now vm_compute|]. split.
  { intros k Hk. apply getitem_colors. unfold MAX_SATS in Hk. lia. }
  destruct script_stages
    as (sats & orbit & initial & frames & exported
        & Hload & Hmax & Horbit & Hinitial & Hframes & _ & Hscript).
  eexists. split; [exact Hscript|].
  cbn [run_satellites run_orbit_traces run_initial_markers run_frames].
  intros k Hk. split; [lia|].
  destruct (getitem_in_range sats k Hk) as (sat & Hsat).
  destruct (orbit_trace_ok sats k sat Hmax (proj1 Hk) Hsat)
    as (xs & ys & zs & color & _ & Hcolor & Hpal & Htrace).
  assert (Hnth : nth_error sats (Z.to_nat k) = Some sat)
    by (apply getitem_Ok_nth_error; [lia|assumption]).
  destruct (for_each_nth _ _ _ Horbit (Z.to_nat k) (k, position_km sat grid))
    as (otrace & Hotrace & Hoget).
  { unfold enumerate.
    rewrite (enumerate_from_nth _ 0 (Z.to_nat k) (position_km sat grid)).
    - do 2 f_equal. lia.
    - now rewrite nth_error_map, Hnth. }
  apply for_each_range in Hinitial. destruct Hinitial as (_ & Hinth).
  destruct (Hinth k Hk) as (marker & Hmarker & Hmget).
  rewrite initial_marker_is_first_update in Hmarker.
  destruct (marker_update_ok sats 0 k sat Hmax ltac:(unfold NUM_FRAMES; lia)
              (proj1 Hk) Hsat)
    as (x & y & z & color' & _ & _ & _ & _ & Hcolor' & _ & Hm).
  exists color, otrace, marker. split; [assumption|]. split.
  { rewrite <- (Z2Nat.id k) by lia. now apply getitem_nth_error. }
  split; [rewrite Htrace in Hotrace; injection Hotrace as <-; reflexivity|].
  split; [assumption|]. split.
  { rewrite Hm in Hmarker. injection Hmarker as <-. cbn [trace_color marker_color].
    congruence. }
  intros frame Hin.
  destruct (for_each_In _ _ _ _ Hframes Hin) as (n & Hn & Hbuild).
  apply In_range in Hn. unfold build_frame in Hbuild.
  destruct (for_each (marker_update (positions_of sats) (names_of sats) n)
              (range (len sats))) as [markers| |] eqn:Hmarkers; try discriminate.
  cbn [bind] in Hbuild. injection Hbuild as <-. cbn [frame_data].
  apply for_each_range in Hmarkers. destruct Hmarkers as (_ & Hmnth).
  destruct (Hmnth k Hk) as (update & Hupdate & Huget).
  destruct (marker_update_ok sats n k sat Hmax Hn (proj1 Hk) Hsat)
    as (x' & y' & z' & color'' & _ & _ & _ & _ & Hcolor'' & _ & Hm').
  exists update. split; [assumption|].
  rewrite Hm' in Hupdate. injection Hupdate as <-. cbn [trace_color marker_color].
  congruence.
Qed.

(** C3: with the time grid of 300 points and the export stride of 2, the
    export loop writes exactly 150 images; the k-th of them ([k] from 0 to
    149) shows the frame at time-grid index [2k]; the indices referenced,
    [range(0, 300, 2)], are strictly increasing and pairwise distinct. *)
Theorem export_writes_every_second_frame :
  exists (run : Run Time) (frame_nums : list Z),
    the_script w = Ok run /\
    len (run_frames run) = 300 /\
    range3 0 NUM_FRAMES 2 = Ok frame_nums /\
    len frame_nums = 150 /\
    len (run_exported run) = 150 /\
    StronglySorted Z.lt frame_nums /\
    NoDup frame_nums /\
    forall k : Z, 0 <= k < 150 ->
      exists frame : Frame,
        getitem frame_nums k = Ok (2 * k) /\
        getitem (run_frames run) (2 * k) = Ok frame /\
        build_frame (run_satellites run) (run_positions run) (run_names run)
          (2 * k) = Ok frame /\
        frame_name frame = str_of_int (2 * k) /\
        getitem (run_exported run) k =
          Ok (mkWriteImage (frame_path k)
                ([the_earth] ++ run_orbit_traces run ++ frame_data frame)
                1280 720 1).
Proof.
  destruct script_stages
    as (sats & orbit & initial & frames & exported
        & Hload & Hmax & _ & _ & Hframes & Hexport & Hscript).
  eexists. exists (range_up 150 0 2). split; [exact Hscript|].
  cbn [run_frames run_exported run_satellites run_positions run_names
       run_orbit_traces].
  apply for_each_range in Hframes. destruct Hframes as (Hlen & Hnth).
  split; [rewrite Hlen; reflexivity|]. split; [reflexivity|].
  split; [unfold len; now rewrite range_up_length|].
  destruct (export_loop_spec frames ([the_earth] ++ orbit) (range_up 150 0 2) 0)
    as (exported' & Hexport' & Hwlen & Hwnth).
  { intros x Hin. apply range_up_In in Hin. destruct Hin as (j & Hj & ->).
    rewrite Hlen. unfold NUM_FRAMES. lia. }
  rewrite Hexport in Hexport'. injection Hexport' as <-.
  split; [unfold len; now rewrite Hwlen, range_up_length|].
  split; [apply range_up_sorted; lia|]. split; [apply range_up_NoDup; lia|].
  intros k Hk.
  assert (Hnum : nth_error (range_up 150 0 2) (Z.to_nat k) = Some (2 * k)).
  { rewrite range_up_nth by lia. f_equal. lia. }
  destruct (Hwnth _ _ Hnum) as (frame & Hframe & Hwritten).
  destruct (Hnth (2 * k) ltac:(unfold NUM_FRAMES; lia)) as (frame' & Hbuild & Hframe').
  assert (frame' = frame) by congruence. subst frame'.
  exists frame. split.
  { rewrite <- (Z2Nat.id k) at 1 by lia. now apply getitem_nth_error. }
  split; [assumption|]. split; [assumption|]. split.
  { unfold build_frame in Hbuild.
    destruct (for_each (marker_update (positions_of sats) (names_of sats) (2 * k))
                (range (len sats))) as [markers| |]; try discriminate.
    cbn [bind] in Hbuild. injection Hbuild as <-. reflexivity. }
  rewrite <- (Z2Nat.id k) at 1 by lia.
  rewrite (getitem_nth_error _ _ _ Hwritten).
  rewrite Z.add_0_l, Z2Nat.id by lia. now rewrite <- app_assoc.
Qed.

End ScriptProperties.

(** ** Determinism *)

Section Determinism.

Variable Time : Type.
Variable ts_utc : Z -> Z -> Z -> Time.
Variable time_add : Time -> float -> Time.
Variable ts_linspace : Time -> Time -> Z -> Time.
Variable position_km : EarthSatellite -> Time -> ndarray.
Variables x_earth y_earth z_earth : ndarray.

Local Abbreviation the_script :=
  (script Time ts_utc time_add ts_linspace position_km x_earth y_earth z_earth).


End Determinism.

(** ** The script on the test double *)

Lemma demo_position_shape (sat : EarthSatellite) :
  has_shape (demo_position_km sat (t Z demo_utc demo_add demo_linspace)) 3
    NUM_FRAMES = true.
Proof. reflexivity. Qed.

Lemma export_writes_every_second_frame_witness :
  exists run : Run Z,
    demo_script (demo_world 20261103 7) = Ok run /\
    len (run_exported run) = 150.
Proof.
  destruct (export_writes_every_second_frame Z demo_utc demo_add demo_linspace
              demo_position_km [] [] [] demo_position_shape
              (demo_world 20261103 7) (mkResponse 200 demo_text)
              eq_refl eq_refl)
    as (run & frame_nums & Hrun & _ & _ & _ & Hlen & _).
  exists run. split; assumption.
Defined.

Lemma frames_keep_satellite_positions_witness :
  exists run : Run Z,
    demo_script (demo_world 20261103 7) = Ok run /\
    len (run_frames run) = NUM_FRAMES.
Proof.
  destruct (frames_keep_satellite_positions Z demo_utc demo_add demo_linspace
              demo_position_km [] [] [] demo_position_shape
              (demo_world 20261103 7) (mkResponse 200 demo_text)
              eq_refl eq_refl)
    as (run & Hrun & _ & Hlen & _).
  exists run. split; assumption.
Defined.

Lemma initial_markers_are_first_frame_witness :
  exists (run : Run Z) (frame0 : Frame),
    demo_script (demo_world 20261103 7) = Ok run /\
    getitem (run_frames run) 0 = Ok frame0 /\
    frame_data frame0 = run_initial_markers run.
Proof.
  destruct (initial_markers_are_first_frame Z demo_utc demo_add demo_linspace
              demo_position_km [] [] [] demo_position_shape
              (demo_world 20261103 7) (mkResponse 200 demo_text)
              eq_refl eq_refl)
    as (run & frame0 & Hrun & Hframe0 & Hsame & _).
  exists run, frame0. repeat split; assumption.
Defined.

Lemma colors_cycle_through_palette_witness :
  exists color : pystr,
    getitem colors 13 = Ok color /\ getitem palette 3 = Ok color.
Proof.
  destruct (colors_cycle_through_palette Z demo_utc demo_add demo_linspace
              demo_position_km [] [] [] demo_position_shape
              (demo_world 20261103 7) (mkResponse 200 demo_text)
              eq_refl eq_refl)
    as (_ & _ & Hcolors & _).
  exact (Hcolors 13 ltac:(unfold MAX_SATS; lia)).
Defined.


(** * Further properties of the parser *)




Lemma spec_groups_length (lines : list pystr) :
  (3 * length (spec_groups lines) <= length lines)%nat.
Proof.
  induction lines as [| a | a b | a b c rest IH] using list_ind3;
    cbn [spec_groups length]; lia.
Qed.

Lemma spec_records_length (gs : list group) :
  (length (spec_records gs) <= length gs)%nat.
Proof.
  induction gs as [|g gs IH]; cbn [spec_records length]; [lia|].
  destruct (spec_accept g); cbn [length]; lia.
Qed.

(** X2: the parser returns at most one record per three lines of the input; in
    particular nothing on fewer than three lines, whatever the maximum. *)
Theorem load_satellites_one_per_three_lines (text : pystr) (M : Z) :
  exists sats : list EarthSatellite,
    load_satellites_text text M = Ok sats /\
    3 * len sats <= len (splitlines text) /\
    (len (splitlines text) < 3 -> sats = []).
Proof.
  rewrite load_satellites_text_spec. eexists. split; [reflexivity|].
  assert (Hlen : 3 * len (spec_parse (splitlines text) M) <= len (splitlines text)).
  { unfold spec_parse, len. rewrite length_firstn.
    pose proof (spec_records_length (spec_groups (splitlines text))).
    pose proof (spec_groups_length (splitlines text)). lia. }
  split; [exact Hlen|]. intros Hshort.
  destruct (spec_parse (splitlines text) M) as [|sat sats]; [reflexivity|].
  rewrite len_cons in Hlen. pose proof (len_nonneg sats). lia.
Qed.

Lemma load_satellites_one_per_three_lines_witness :
  load_satellites_text (unlines [py "SAT A"; py "1 00001U"]) 30 = Ok [].
Proof.
  destruct (load_satellites_one_per_three_lines
              (unlines [py "SAT A"; py "1 00001U"]) 30)
    as (sats & Hrun & _ & Hshort).
  rewrite Hrun. f_equal. apply Hshort. reflexivity.
Defined.










(** ** Trimming *)

Lemma forallb_rev {A : Type} (f : A -> bool) (l : list A) :
  forallb f (rev l) = forallb f l.
Proof.
  induction l as [|x l IH]; [reflexivity|].
  cbn [rev forallb]. rewrite forallb_app, IH. cbn [forallb].
  rewrite andb_true_r. apply andb_comm.
Qed.

Lemma lstrip_all_space (ws s : pystr) :
  all_space ws = true -> lstrip (ws ++ s) = lstrip s.
Proof.
  induction ws as [|c ws IH]; [reflexivity|]. cbn [all_space forallb].
  intros H. apply andb_prop in H. destruct H as (Hc & Hws).
  cbn [app lstrip]. rewrite Hc. now apply IH.
Qed.

Lemma rstrip_all_space (s ws : pystr) :
  all_space ws = true -> rstrip (s ++ ws) = rstrip s.
Proof.
  intros H. unfold rstrip. rewrite rev_app_distr.
  rewrite lstrip_all_space; [reflexivity|].
  unfold all_space. now rewrite forallb_rev.
Qed.

Lemma lstrip_nil_iff_no_char (s : pystr) :
  existsb (fun c => negb (is_space c)) s = false -> lstrip s = [].
Proof.
  induction s as [|c s IH]; [reflexivity|]. cbn [existsb lstrip].
  destruct (is_space c); [exact IH|discriminate].
Qed.

Lemma existsb_app_false {A : Type} (f : A -> bool) (l l' : list A) :
  existsb f l = false -> existsb f l' = false -> existsb f (l ++ l') = false.
Proof. intros H H'. now rewrite existsb_app, H, H'. Qed.

Lemma all_space_no_char (ws : pystr) :
  all_space ws = true -> existsb (fun c => negb (is_space c)) ws = false.
Proof.
  induction ws as [|c ws IH]; [reflexivity|]. cbn [all_space forallb existsb].
  intros H. apply andb_prop in H. destruct H as (Hc & Hws).
  rewrite Hc. now apply IH.
Qed.

(** White space around a line does not change its trimmed form. *)
Lemma strip_padding (before s after : pystr) :
  all_space before = true -> all_space after = true ->
  strip (before ++ s ++ after) = strip s.
Proof.
  intros Hb Ha. unfold strip. rewrite lstrip_all_space by exact Hb.
  destruct (existsb (fun c => negb (is_space c)) s) eqn:Hs.
  - rewrite lstrip_app by exact Hs. now apply rstrip_all_space.
  - rewrite (lstrip_nil_iff_no_char s Hs).
    rewrite lstrip_nil_iff_no_char; [reflexivity|].
    apply existsb_app_false; [exact Hs|now apply all_space_no_char].
Qed.

Lemma lstrip_head (s : pystr) :
  lstrip s = [] \/ exists c rest, lstrip s = c :: rest /\ is_space c = false.
Proof.
  induction s as [|c s IH]; [now left|]. cbn [lstrip].
  destruct (is_space c) eqn:Hc; [exact IH|]. right. now exists c, s.
Qed.

Lemma rstrip_head (c : codepoint) (rest : pystr) :
  is_space c = false -> exists rest', rstrip (c :: rest) = c :: rest'.
Proof.
  intros Hc. unfold rstrip. cbn [rev]. rewrite lstrip_snoc by exact Hc.
  rewrite rev_app_distr. cbn [rev app]. eexists. reflexivity.
Qed.

Lemma lstrip_idempotent (s : pystr) : lstrip (lstrip s) = lstrip s.
Proof.
  destruct (lstrip_head s) as [->|(c & rest & -> & Hc)]; [reflexivity|].
  cbn [lstrip]. now rewrite Hc.
Qed.

Lemma rstrip_idempotent (s : pystr) : rstrip (rstrip s) = rstrip s.
Proof.
  unfold rstrip. now rewrite rev_involutive, lstrip_idempotent.
Qed.

(** A trimmed string has no white space left at either end. *)
Lemma strip_trimmed (s : pystr) :
  lstrip (strip s) = strip s /\ rstrip (strip s) = strip s.
Proof.
  unfold strip. split; [|apply rstrip_idempotent].
  destruct (lstrip_head s) as [->|(c & rest & -> & Hc)]; [reflexivity|].
  destruct (rstrip_head c rest Hc) as (rest' & ->).
  cbn [lstrip]. now rewrite Hc.
Qed.

Lemma strip_idempotent (s : pystr) : strip (strip s) = strip s.
Proof.
  destruct (strip_trimmed s) as (Hl & Hr).
  unfold strip at 1. now rewrite Hl, Hr.
Qed.

Lemma lstrip_no_linebreak (s : pystr) :
  no_linebreak s = true -> no_linebreak (lstrip s) = true.
Proof.
  induction s as [|c s IH]; [reflexivity|]. intros H. cbn [lstrip].
  destruct (is_space c); [|exact H].
  cbn [no_linebreak forallb] in H. apply andb_prop in H. now apply IH.
Qed.

Lemma strip_no_linebreak (s : pystr) :
  no_linebreak s = true -> no_linebreak (strip s) = true.
Proof.
  intros H. unfold strip, rstrip, no_linebreak. rewrite forallb_rev.
  apply lstrip_no_linebreak. unfold no_linebreak. rewrite forallb_rev.
  now apply lstrip_no_linebreak.
Qed.

(** ** Lines of a text *)

Lemma splitlines_from_no_linebreak_upto (n : nat) :
  forall s cur : pystr,
    (length s <= n)%nat ->
    no_linebreak cur = true ->
    Forall (fun l => no_linebreak l = true) (splitlines_from cur s).
Proof.
  induction n as [|n IH]; intros s cur Hlen Hcur;
    assert (Hrev : no_linebreak (rev cur) = true)
      by (unfold no_linebreak; now rewrite forallb_rev).
  - destruct s; [|simpl in Hlen; lia]. cbn [splitlines_from].
    destruct cur; constructor; [exact Hrev|constructor].
  - destruct s as [|c s].
    { cbn [splitlines_from]. destruct cur; constructor; [exact Hrev|constructor]. }
    cbn [length] in Hlen. cbn [splitlines_from].
    destruct (is_linebreak c) eqn:Hc.
    + destruct s as [|c' s'].
      * constructor; [exact Hrev|constructor].
      * cbn [length] in Hlen.
        destruct ((c =? CR) && (c' =? LF)); (constructor; [exact Hrev|]);
          apply IH; cbn [length]; try lia; reflexivity.
    + apply IH; [lia|]. cbn [no_linebreak forallb]. now rewrite Hc.
Qed.

(** No line of [splitlines] holds a line boundary. *)
Lemma splitlines_no_linebreak (s : pystr) :
  Forall (fun l => no_linebreak l = true) (splitlines s).
Proof.
  apply (splitlines_from_no_linebreak_upto (length s)); [lia|reflexivity].
Qed.

Lemma spec_parse_lines (lines : list pystr) (M : Z) (sat : EarthSatellite) :
  In sat (spec_parse lines M) ->
  exists a b c : pystr,
    In a lines /\ In b lines /\ In c lines /\
    sat = mkEarthSatellite (strip b) (strip c) (strip a).
Proof.
  intros Hin.
  destruct (spec_parse_In _ _ _ Hin) as (k & a & b & c & Ha & Hb & Hc & -> & _).
  exists a, b, c. repeat split; eauto using nth_error_In.
Qed.

(** X5: every field of a record returned by the parser is in trimmed form
    (trimming it again changes nothing) and holds no line boundary. *)
Theorem load_satellites_fields_trimmed (text : pystr) (M : Z) :
  exists sats : list EarthSatellite,
    load_satellites_text text M = Ok sats /\
    forall sat : EarthSatellite, In sat sats ->
      strip (sat_name sat) = sat_name sat /\
      strip (sat_line1 sat) = sat_line1 sat /\
      strip (sat_line2 sat) = sat_line2 sat /\
      no_linebreak (sat_name sat) = true /\
      no_linebreak (sat_line1 sat) = true /\
      no_linebreak (sat_line2 sat) = true.
Proof.
  rewrite load_satellites_text_spec. eexists. split; [reflexivity|].
  intros sat Hin.
  destruct (spec_parse_lines _ _ _ Hin) as (a & b & c & Ha & Hb & Hc & ->).
  cbn [sat_name sat_line1 sat_line2].
  pose proof (splitlines_no_linebreak text) as Hlines.
  rewrite Forall_forall in Hlines.
  repeat split; try apply strip_idempotent;
    apply strip_no_linebreak; now apply Hlines.
Qed.

Lemma scan_trimmed_lines (lines : list pystr) (M : Z) :
  forall (lines' : list pystr) (sats : list EarthSatellite) (k : Z),
    Forall2 (fun l l' => strip l' = strip l) lines lines' ->
    scan lines' M sats k = scan lines M sats k.
Proof.
  induction lines as [| a | a b | a b c rest IH] using list_ind3;
    intros lines' sats k Hall.
  - inversion Hall; subst. reflexivity.
  - inversion Hall as [|? a' ? r1 Ha H1]; subst. inversion H1; subst. reflexivity.
  - inversion Hall as [|? a' ? r1 Ha H1]; subst.
    inversion H1 as [|? b' ? r2 Hb H2]; subst. inversion H2; subst. reflexivity.
  - inversion Hall as [|? a' ? r1 Ha H1]; subst.
    inversion H1 as [|? b' ? r2 Hb H2]; subst.
    inversion H2 as [|? c' ? r3 Hc H3]; subst.
    cbn [scan spec_accept]. rewrite Ha, Hb, Hc.
    destruct (len sats <? M); [|reflexivity]. now apply IH.
Qed.

(** X6: the parser sees a line only through its trimmed form: white space
    added before and after any of the lines changes neither the records nor
    the point where the loop stops. *)
Theorem load_loop_ignores_padding
    (padded : list (pystr * pystr * pystr)) (M : Z) :
  Forall (fun p : pystr * pystr * pystr =>
            all_space (fst (fst p)) = true /\ all_space (snd p) = true) padded ->
  load_loop (map (fun p => fst (fst p) ++ snd (fst p) ++ snd p) padded) M =
  load_loop (map (fun p => snd (fst p)) padded) M.
Proof.
  intros Hall. rewrite !load_loop_scan. f_equal. apply scan_trimmed_lines.
  induction Hall as [|[[before l] after] padded (Hb & Ha) _ IH];
    cbn [map fst snd]; constructor; [|exact IH].
  now apply strip_padding.
Qed.

Lemma load_loop_ignores_padding_witness :
  load_loop [py "  SAT A"; [9] ++ py "1 00001U" ++ [32]; py "2 00001  "] 30 =
  load_loop [py "SAT A"; py "1 00001U"; py "2 00001"] 30.
Proof.
  apply (load_loop_ignores_padding
           [(py "  ", py "SAT A", []); ([9], py "1 00001U", [32]);
            ([], py "2 00001", py "  ")] 30).
  repeat constructor.
Defined.

(** ** Line endings *)

Lemma not_linebreak_not_LF (c : codepoint) : is_linebreak c = false -> c <> LF.
Proof. intros H ->. discriminate H. Qed.

Lemma splitlines_from_boundary (l : pystr) :
  forall (cur : pystr) (c : codepoint) (rest : pystr),
    no_linebreak l = true ->
    is_linebreak c = true ->
    (c = CR -> hd 0 rest <> LF) ->
    splitlines_from cur (l ++ c :: rest) =
    (rev cur ++ l) :: splitlines_from [] rest.
Proof.
  induction l as [|x l IH]; intros cur c rest Hl Hc Hrest.
  - cbn [app splitlines_from]. rewrite Hc, app_nil_r.
    destruct rest as [|c' rest']; [reflexivity|].
    destruct ((c =? CR) && (c' =? LF)) eqn:E; [|reflexivity].
    apply andb_prop in E. destruct E as (E1 & E2).
    apply Z.eqb_eq in E1, E2. now destruct (Hrest E1).
  - cbn [no_linebreak forallb] in Hl. apply andb_prop in Hl.
    destruct Hl as (Hx & Hl). apply negb_true_iff in Hx.
    cbn [app splitlines_from]. rewrite Hx.
    rewrite IH by assumption. cbn [rev]. now rewrite <- app_assoc.
Qed.

Lemma splitlines_from_crlf (l : pystr) :
  forall (cur rest : pystr),
    no_linebreak l = true ->
    splitlines_from cur (l ++ CR :: LF :: rest) =
    (rev cur ++ l) :: splitlines_from [] rest.
Proof.
  induction l as [|x l IH]; intros cur rest Hl.
  - cbn [app splitlines_from]. change (is_linebreak CR) with true.
    cbv iota. change ((CR =? CR) && (LF =? LF)) with true. cbv iota.
    now rewrite app_nil_r.
  - cbn [no_linebreak forallb] in Hl. apply andb_prop in Hl.
    destruct Hl as (Hx & Hl). apply negb_true_iff in Hx.
    cbn [app splitlines_from]. rewrite Hx.
    rewrite IH by assumption. cbn [rev]. now rewrite <- app_assoc.
Qed.

Lemma splitlines_from_last (tail : pystr) :
  forall cur : pystr,
    no_linebreak tail = true ->
    splitlines_from cur tail =
    match cur, tail with
    | [], [] => []
    | _, _ => [rev cur ++ tail]
    end.
Proof.
  induction tail as [|c tail IH]; intros cur Htail.
  - cbn [splitlines_from]. destruct cur; [reflexivity|now rewrite app_nil_r].
  - cbn [no_linebreak forallb] in Htail. apply andb_prop in Htail.
    destruct Htail as (Hc & Htail). apply negb_true_iff in Hc.
    cbn [splitlines_from]. rewrite Hc. rewrite IH by exact Htail.
    cbn [rev]. rewrite <- app_assoc. cbn [app].
    destruct cur, tail; reflexivity.
Qed.

Lemma hd_app_not_LF (u v : pystr) :
  no_linebreak u = true -> (u = [] -> hd 0 v <> LF) -> hd 0 (u ++ v) <> LF.
Proof.
  destruct u as [|x u]; intros Hu Hv; [now apply Hv|].
  cbn [no_linebreak forallb] in Hu. apply andb_prop in Hu.
  destruct Hu as (Hx & _). apply negb_true_iff in Hx.
  cbn [app hd]. now apply not_linebreak_not_LF.
Qed.

Lemma splitlines_join_char (c : codepoint) (lines : list pystr) (tail : pystr) :
  is_linebreak c = true ->
  Forall (fun l => no_linebreak l = true) lines ->
  no_linebreak tail = true ->
  splitlines (join_lines [c] lines ++ tail) = lines ++ splitlines tail /\
  (c = CR -> hd 0 (join_lines [c] lines ++ tail) <> LF).
Proof.
  intros Hc Hlines Htail. induction Hlines as [|l lines Hl _ (IH & IHhd)].
  - split; [reflexivity|]. intros _. cbn [join_lines app].
    rewrite <- (app_nil_r tail).
    apply hd_app_not_LF; [exact Htail|]. intros _. discriminate.
  - split.
    + unfold splitlines in *. cbn [join_lines app]. rewrite <- !app_assoc.
      cbn [app]. rewrite splitlines_from_boundary by assumption.
      cbn [rev app]. now rewrite IH.
    + intros ->. cbn [join_lines]. rewrite <- !app_assoc.
      apply hd_app_not_LF; [exact Hl|]. intros _. cbn [app hd]. discriminate.
Qed.

Lemma splitlines_join_crlf (lines : list pystr) (tail : pystr) :
  Forall (fun l => no_linebreak l = true) lines ->
  no_linebreak tail = true ->
  splitlines (join_lines [CR; LF] lines ++ tail) = lines ++ splitlines tail.
Proof.
  intros Hlines Htail. induction Hlines as [|l lines Hl _ IH]; [reflexivity|].
  unfold splitlines in *. cbn [join_lines app]. rewrite <- !app_assoc.
  cbn [app]. rewrite splitlines_from_crlf by assumption.
  cbn [rev app]. now rewrite IH.
Qed.

Lemma splitlines_join (eol : pystr) (lines : list pystr) (tail : pystr) :
  is_eol eol = true ->
  Forall (fun l => no_linebreak l = true) lines ->
  no_linebreak tail = true ->
  splitlines (join_lines eol lines ++ tail) = lines ++ splitlines tail.
Proof.
  intros Heol Hlines Htail. destruct eol as [|c [|c' [|c'' eol]]];
    try discriminate.
  - now apply splitlines_join_char.
  - cbn [is_eol] in Heol. apply andb_prop in Heol. destruct Heol as (E1 & E2).
    apply Z.eqb_eq in E1, E2. subst. now apply splitlines_join_crlf.
Qed.

Lemma unlines_join_lines (lines : list pystr) :
  unlines lines = join_lines [LF] lines.
Proof.
  induction lines as [|l lines IH]; [reflexivity|].
  cbn [unlines join_lines app]. now rewrite IH.
Qed.

Lemma join_lines_snoc (eol : pystr) (lines : list pystr) (last : pystr) :
  join_lines eol (lines ++ [last]) = join_lines eol lines ++ last ++ eol.
Proof.
  induction lines as [|l lines IH]; cbn [app join_lines].
  - now rewrite app_nil_r.
  - rewrite IH. now rewrite <- !app_assoc.
Qed.

(** X7: the parser does not depend on the line ending: lines that all end with
    a line feed, a carriage return, a carriage return and a line feed, or
    any other line boundary give the same lines and the same records as
    with line feeds; and a last line without a line ending is read as if it
    had one. *)
Theorem load_satellites_line_endings (eol : pystr) (lines : list pystr) (M : Z) :
  is_eol eol = true ->
  Forall (fun l => no_linebreak l = true) lines ->
  splitlines (join_lines eol lines) = lines /\
  load_satellites_text (join_lines eol lines) M =
    load_satellites_text (unlines lines) M /\
  forall last : pystr,
    last <> [] -> no_linebreak last = true ->
    load_satellites_text (join_lines eol lines ++ last) M =
    load_satellites_text (join_lines eol (lines ++ [last])) M.
Proof.
  intros Heol Hlines.
  assert (Hsplit : forall e, is_eol e = true -> splitlines (join_lines e lines) = lines).
  { intros e He. rewrite <- (app_nil_r (join_lines e lines)).
    rewrite splitlines_join by (assumption || reflexivity).
    apply app_nil_r. }
  split; [now apply Hsplit|]. split.
  - rewrite !load_satellites_text_spec, unlines_join_lines.
    now rewrite !Hsplit by (assumption || reflexivity).
  - intros last Hne Hlast. rewrite !load_satellites_text_spec.
    rewrite splitlines_join by assumption.
    rewrite <- (app_nil_r (join_lines eol (lines ++ [last]))).
    rewrite splitlines_join; [|assumption| |reflexivity].
    + unfold splitlines at 1. rewrite splitlines_from_last by exact Hlast.
      cbn [rev app]. destruct last; [contradiction|]. now rewrite app_nil_r.
    + apply Forall_app. split; [assumption|]. constructor; [assumption|constructor].
Qed.

Lemma load_satellites_line_endings_witness :
  load_satellites_text
    (join_lines [CR; LF] [py "SAT A"; py "1 00001U"; py "2 00001"]) 30 =
  Ok [mkEarthSatellite (py "1 00001U") (py "2 00001") (py "SAT A")].
Proof.
  destruct (load_satellites_line_endings [CR; LF]
              [py "SAT A"; py "1 00001U"; py "2 00001"] 30 eq_refl
              ltac:(repeat constructor)) as (_ & Hsame & _).
  rewrite Hsame. reflexivity.
Defined.

(** * Further properties of the script *)

(** ** Decimal numerals *)

Lemma unpy_py (s : string) : unpy (py s) = s.
Proof.
  unfold unpy, py. rewrite map_map.
  rewrite <- (string_of_list_ascii_of_string s) at 2. f_equal.
  induction (list_ascii_of_string s) as [|a l IH]; [reflexivity|].
  cbn [map]. now rewrite N2Z.id, ascii_N_embedding, IH.
Qed.

Lemma str_of_int_digits (n : Z) :
  0 <= n ->
  exists d : Decimal.uint,
    str_of_int n = py (NilEmpty.string_of_uint d) /\ Z.of_uint d = n.
Proof.
  intros Hn. destruct n as [|p|p]; [| |lia].
  - exists (Decimal.D0 Decimal.Nil). split; reflexivity.
  - exists (Pos.to_uint p). pose proof (DecimalPos.Unsigned.of_to p) as Hp.
    split.
    + unfold str_of_int. cbn [Z.to_int NilZero.string_of_int].
      destruct (Pos.to_uint p); [discriminate Hp|reflexivity..].
    + unfold Z.of_uint. now rewrite Hp.
Qed.

Lemma decimal_value_str_of_int (n : Z) :
  0 <= n -> decimal_value (str_of_int n) = Some n.
Proof.
  intros Hn. destruct (str_of_int_digits n Hn) as (d & -> & <-).
  unfold decimal_value. now rewrite unpy_py, NilEmpty.usu.
Qed.

Lemma decimal_value_leading_zeros (k : nat) (s : pystr) :
  decimal_value (repeat 48 k ++ s) = decimal_value s.
Proof.
  induction k as [|k IH]; [reflexivity|]. rewrite <- IH.
  unfold decimal_value, unpy. cbn [repeat app map string_of_list_ascii].
  change (ascii_of_N (Z.to_N 48)) with "0"%char.
  cbn [NilEmpty.uint_of_string].
  destruct (NilEmpty.uint_of_string _); reflexivity.
Qed.

Lemma format_04d_nonneg (n : Z) :
  0 <= n ->
  format_04d n = repeat 48 (4 - length (str_of_int n)) ++ str_of_int n.
Proof.
  intros Hn. unfold format_04d.
  destruct (Z.ltb_spec n 0) as [?|_]; [lia|].
  rewrite Z.abs_eq by exact Hn. cbn [app length]. now rewrite Nat.sub_0_r.
Qed.

(** Distinct frame numbers have distinct names. *)
Lemma str_of_int_injective (j k : Z) :
  0 <= j -> 0 <= k -> str_of_int j = str_of_int k -> j = k.
Proof.
  intros Hj Hk H. pose proof (decimal_value_str_of_int j Hj) as Hdj.
  rewrite H, (decimal_value_str_of_int k Hk) in Hdj. congruence.
Qed.

Lemma frame_index_of_frame_path (n : Z) :
  0 <= n -> frame_index_of_path (frame_path n) = Some n.
Proof.
  intros Hn. unfold frame_index_of_path, frame_path.
  change (skipn 20 (py "assets/frames/frame_" ++ format_04d n ++ py ".png"))
    with (format_04d n ++ py ".png").
  rewrite !length_app.
  replace (length (py "assets/frames/frame_") +
           (length (format_04d n) + length (py ".png")) - 24)%nat
    with (length (format_04d n) + 0)%nat
    by (change (length (py "assets/frames/frame_")) with 20%nat;
        change (length (py ".png")) with 4%nat; lia).
  rewrite firstn_app_2. cbn [firstn]. rewrite app_nil_r.
  rewrite format_04d_nonneg by exact Hn.
  rewrite decimal_value_leading_zeros. now apply decimal_value_str_of_int.
Qed.

Lemma frame_path_injective (j k : Z) :
  0 <= j -> 0 <= k -> frame_path j = frame_path k -> j = k.
Proof.
  intros Hj Hk Heq. pose proof (frame_index_of_frame_path j Hj) as Hrj.
  rewrite Heq, (frame_index_of_frame_path k Hk) in Hrj. congruence.
Qed.

(** X14: the frame index can be read back from the path of an exported frame;
    so distinct indices give distinct paths and no exported frame
    overwrites another. *)
Theorem frame_path_round_trip (j k : Z) :
  0 <= j -> 0 <= k ->
  frame_index_of_path (frame_path j) = Some j /\
  (frame_path j = frame_path k -> j = k).
Proof.
  intros Hj Hk. split; [now apply frame_index_of_frame_path|].
  now apply frame_path_injective.
Qed.

Lemma frame_path_round_trip_witness :
  frame_index_of_path (py "assets/frames/frame_0149.png") = Some 149.
Proof.
  destruct (frame_path_round_trip 149 0 ltac:(lia) ltac:(lia)) as (Hread & _).
  exact Hread.
Defined.

(** ** The export loop on any list of frames *)

Lemma export_loop_In (frames : list Frame) (static : list trace)
    (frame_nums : list Z) (frame_idx : Z) (written : list WriteImage)
    (image : WriteImage) :
  (forall x, In x frame_nums -> 0 <= x < len frames) ->
  export_loop frames static frame_nums frame_idx = Ok written ->
  In image written ->
  exists (frame : Frame) (k : Z),
    In frame frames /\ 0 <= k /\
    image = mkWriteImage (frame_path (frame_idx + k)) (static ++ frame_data frame)
              1280 720 1.
Proof.
  intros Hrange Hrun Hin.
  destruct (export_loop_spec frames static frame_nums frame_idx Hrange)
    as (written' & Hrun' & Hlen & Hnth).
  rewrite Hrun in Hrun'. injection Hrun' as <-.
  destruct (In_nth_error _ _ Hin) as (j & Hj).
  destruct (nth_error frame_nums j) as [x|] eqn:Hx.
  - destruct (Hnth j x Hx) as (frame & Hframe & Hw).
    exists frame, (Z.of_nat j). split.
    + apply getitem_Ok_nth_error in Hframe.
      * eapply nth_error_In. exact Hframe.
      * apply Hrange. eapply nth_error_In. exact Hx.
    + split; [lia|congruence].
  - apply nth_error_None in Hx. apply short_nth_error in Hj. lia.
Qed.


Section ScriptExtras.

Variable Time : Type.
Variable ts_utc : Z -> Z -> Z -> Time.
Variable time_add : Time -> float -> Time.
Variable ts_linspace : Time -> Time -> Z -> Time.
Variable position_km : EarthSatellite -> Time -> ndarray.
Variables x_earth y_earth z_earth : ndarray.

Local Abbreviation grid := (t Time ts_utc time_add ts_linspace).
Local Abbreviation positions_of sats := (map (fun sat => position_km sat grid) sats).
Local Abbreviation names_of sats :=
  (map (fun sat : EarthSatellite => slice_to (sat_name sat) 20) sats).
Local Abbreviation the_earth := (earth x_earth y_earth z_earth).
Local Abbreviation the_render :=
  (render Time ts_utc time_add ts_linspace position_km x_earth y_earth z_earth).
Local Abbreviation the_script :=
  (script Time ts_utc time_add ts_linspace position_km x_earth y_earth z_earth).


(** X11: when no group of the response passes the prefix check, the script
    still completes: no orbit trace and no marker, all the frames with an
    empty marker list, and every exported image showing the Earth alone. *)
Theorem script_without_satellites (w : World Time) (r : Response) :
  requests_get w STARLINK_URL = Ok r ->
  raise_for_status r = Ok tt ->
  load_satellites_text (text r) MAX_SATS = Ok [] ->
  the_script w =
  Ok (mkRun [] (ts_utc 2026 2 1) grid [] [] [] []
        (map (fun k => mkFrame [] (str_of_int k)) (range NUM_FRAMES))
        (map (fun k => mkWriteImage (frame_path k) [the_earth] 1280 720 1)
           (range 150))).
Proof.
  intros Hget Hstatus Hnone. unfold script.
  rewrite (load_satellites_response _ _ _ _ Hget Hstatus), Hnone.
  cbn [bind]. vm_compute. reflexivity.
Qed.

Variable w : World Time.
Variable response : Response.
Hypothesis position_shape :
  forall sat : EarthSatellite,
    has_shape (position_km sat grid) 3 NUM_FRAMES = true.
Hypothesis fetched : requests_get w STARLINK_URL = Ok response.
Hypothesis status_ok : raise_for_status response = Ok tt.

(** X12: the orbit traces follow the satellites: one trace per satellite, in
    order, holding the three full rows of that satellite's position array
    and its name cut to 20 characters; the initial marker of the satellite
    sits at the first point of that path, under the same name and color. *)
Theorem orbit_traces_follow_satellites :
  exists run : Run Time,
    the_script w = Ok run /\
    len (run_orbit_traces run) = len (run_satellites run) /\
    len (run_names run) = len (run_satellites run) /\
    forall j : Z, 0 <= j < len (run_satellites run) ->
      exists (sat : EarthSatellite) (xs ys zs : list float) (x0 y0 z0 : float)
             (color name : pystr),
        getitem (run_satellites run) j = Ok sat /\
        position_km sat (run_t run) = [xs; ys; zs] /\
        len xs = NUM_FRAMES /\ len ys = NUM_FRAMES /\ len zs = NUM_FRAMES /\
        getitem (run_names run) j = Ok name /\
        name = slice_to (sat_name sat) 20 /\
        len name <= 20 /\
        (len (sat_name sat) <= 20 -> name = sat_name sat) /\
        getitem (run_orbit_traces run) j =
          Ok (Scatter3d xs ys zs (py "lines") (Some (mkLine color 3)) None name
                (Some (py "name"))) /\
        getitem xs 0 = Ok x0 /\ getitem ys 0 = Ok y0 /\ getitem zs 0 = Ok z0 /\
        getitem (run_initial_markers run) j =
          Ok (Scatter3d [x0] [y0] [z0] (py "markers") None
                (Some (mkMarker 8 color)) name None).
Proof.
  destruct (script_stages Time ts_utc time_add ts_linspace position_km
              x_earth y_earth z_earth position_shape w response fetched status_ok)
    as (sats & orbit & initial & frames & exported
        & Hload & Hmax & Horbit & Hinitial & _ & _ & Hscript).
  eexists. split; [exact Hscript|].
  cbn [run_satellites run_orbit_traces run_names run_t run_initial_markers].
  split.
  { rewrite (for_each_length _ _ _ Horbit). unfold len, enumerate.
    now rewrite enumerate_from_length, length_map. }
  split; [unfold len; now rewrite length_map|].
  intros j Hj. destruct (getitem_in_range sats j Hj) as (sat & Hsat).
  destruct (orbit_trace_ok Time ts_utc time_add ts_linspace position_km
              position_shape sats j sat Hmax (proj1 Hj) Hsat)
    as (xs & ys & zs & color & Hrows & Hcolor & _ & Htrace).
  destruct (has_shape_rows _ _ (position_shape sat))
    as (xs' & ys' & zs' & Hrows' & Hxs & Hys & Hzs).
  rewrite Hrows in Hrows'. injection Hrows' as <- <- <-.
  assert (Hnth : nth_error sats (Z.to_nat j) = Some sat)
    by (apply getitem_Ok_nth_error; [lia|assumption]).
  destruct (for_each_nth _ _ _ Horbit (Z.to_nat j) (j, position_km sat grid))
    as (otrace & Hotrace & Hoget).
  { unfold enumerate.
    rewrite (enumerate_from_nth _ 0 (Z.to_nat j) (position_km sat grid)).
    - do 2 f_equal. lia.
    - now rewrite nth_error_map, Hnth. }
  apply for_each_range in Hinitial. destruct Hinitial as (_ & Hinth).
  destruct (Hinth j Hj) as (marker & Hmarker & Hmget).
  rewrite initial_marker_is_first_update in Hmarker.
  destruct (marker_update_ok Time ts_utc time_add ts_linspace position_km
              position_shape sats 0 j sat Hmax ltac:(unfold NUM_FRAMES; lia)
              (proj1 Hj) Hsat)
    as (x0 & y0 & z0 & color' & _ & Hx & Hy & Hz & Hcolor' & _ & Hm).
  assert (color' = color) by congruence. subst color'.
  rewrite Hrows in Hx, Hy, Hz. unfold getitem2 in Hx, Hy, Hz.
  change (getitem [xs; ys; zs] 0) with (Ok xs) in Hx.
  change (getitem [xs; ys; zs] 1) with (Ok ys) in Hy.
  change (getitem [xs; ys; zs] 2) with (Ok zs) in Hz.
  cbn [bind] in Hx, Hy, Hz.
  exists sat, xs, ys, zs, x0, y0, z0, color, (slice_to (sat_name sat) 20).
  split; [assumption|]. split; [assumption|].
  repeat (split; [assumption|]).
  split.
  { rewrite <- (Z2Nat.id j) by lia. apply getitem_nth_error.
    now rewrite nth_error_map, Hnth. }
  split; [reflexivity|]. split.
  { unfold len, slice_to. rewrite length_firstn. lia. }
  split.
  { intros Hshort. unfold slice_to. apply firstn_all2. unfold len in Hshort. lia. }
  split.
  { rewrite <- (Z2Nat.id j) by lia. rewrite (getitem_nth_error _ _ _ Hoget).
    congruence. }
  repeat (split; [assumption|]).
  rewrite Hmget. congruence.
Qed.

(** X13: every exported image is made of as many traces as the figure was built
    with, [1 + 2 * len(satellites)]: the Earth and the orbit traces of the
    figure, unchanged, in front, then one marker per satellite. *)
Theorem exported_images_match_figure :
  exists run : Run Time,
    the_script w = Ok run /\
    len (figure_data the_earth (run_orbit_traces run) (run_initial_markers run)) =
      1 + 2 * len (run_satellites run) /\
    forall image : WriteImage, In image (run_exported run) ->
      len (shown image) = 1 + 2 * len (run_satellites run) /\
      firstn (S (length (run_orbit_traces run))) (shown image) =
        the_earth :: run_orbit_traces run /\
      firstn (S (length (run_orbit_traces run)))
        (figure_data the_earth (run_orbit_traces run) (run_initial_markers run)) =
        the_earth :: run_orbit_traces run /\
      width image = 1280 /\ height image = 720 /\ scale image = 1.
Proof.
  destruct (script_stages Time ts_utc time_add ts_linspace position_km
              x_earth y_earth z_earth position_shape w response fetched status_ok)
    as (sats & orbit & initial & frames & exported
        & Hload & Hmax & Horbit & Hinitial & Hframes & Hexport & Hscript).
  eexists. split; [exact Hscript|].
  cbn [run_satellites run_orbit_traces run_initial_markers run_exported].
  pose proof (len_nonneg sats) as Hnn.
  assert (Holen : len orbit = len sats).
  { rewrite (for_each_length _ _ _ Horbit). unfold len, enumerate.
    now rewrite enumerate_from_length, length_map. }
  assert (Hilen : len initial = len sats).
  { rewrite (for_each_length _ _ _ Hinitial), len_range. lia. }
  assert (Hprefix : forall rest : list trace,
             firstn (S (length orbit)) ([the_earth] ++ orbit ++ rest) =
             the_earth :: orbit).
  { intros rest. cbn [app firstn]. f_equal.
    rewrite <- (Nat.add_0_r (length orbit)), firstn_app_2. cbn [firstn].
    apply app_nil_r. }
  split.
  { unfold figure_data. rewrite !len_app, Holen, Hilen.
    change (len [the_earth]) with 1. lia. }
  intros image Hin.
  destruct (export_loop_In frames ([the_earth] ++ orbit) (range_up 150 0 2) 0
              exported image) as (frame & k & Hframe & _ & ->);
    [|assumption|assumption|].
  { intros x Hx. apply range_up_In in Hx. destruct Hx as (n & Hn & ->).
    apply for_each_range in Hframes. destruct Hframes as (Hlen & _).
    rewrite Hlen. unfold NUM_FRAMES. lia. }
  cbn [shown width height scale].
  destruct (for_each_In _ _ _ _ Hframes Hframe) as (n & Hn & Hbuild).
  unfold build_frame in Hbuild.
  destruct (for_each (marker_update (positions_of sats) (names_of sats) n)
              (range (len sats))) as [markers| |] eqn:Hmarkers; try discriminate.
  cbn [bind] in Hbuild. injection Hbuild as <-. cbn [frame_data].
  pose proof (for_each_length _ _ _ Hmarkers) as Hmlen. rewrite len_range in Hmlen.
  split.
  { rewrite !len_app, Holen, Hmlen. change (len [the_earth]) with 1. lia. }
  split; [rewrite <- app_assoc; apply Hprefix|].
  split; [apply Hprefix|]. repeat split.
Qed.

Lemma NoDup_map_injective {A B : Type} (f : A -> B) (l : list A) :
  (forall x y, In x l -> In y l -> f x = f y -> x = y) ->
  NoDup l -> NoDup (map f l).
Proof.
  intros Hinj Hnd. induction Hnd as [|x l Hx _ IH]; cbn [map]; constructor.
  - intros Hin. apply in_map_iff in Hin. destruct Hin as (y & Hy & Hyl).
    apply Hx. rewrite (Hinj x y); [assumption|now left|now right|congruence].
  - apply IH. intros a b Ha Hb. apply Hinj; now right.
Qed.

Lemma Forall2_map_eq {A B C : Type} (f : A -> C) (g : B -> C)
    (l : list A) (l' : list B) :
  Forall2 (fun x y => g y = f x) l l' -> map g l' = map f l.
Proof.
  induction 1 as [|x y l l' Hxy _ IH]; [reflexivity|].
  cbn [map]. now rewrite Hxy, IH.
Qed.

(** X15: in a run the frames are named after their time-grid indices and the
    exported images are written under the paths of indices 0, 1, 2, ...:
    no two frames share a name and no image overwrites another. *)
Theorem frame_names_and_paths_distinct :
  exists run : Run Time,
    the_script w = Ok run /\
    map frame_name (run_frames run) = map str_of_int (range NUM_FRAMES) /\
    NoDup (map frame_name (run_frames run)) /\
    map path (run_exported run) = map frame_path (range 150) /\
    NoDup (map path (run_exported run)).
Proof.
  destruct (script_stages Time ts_utc time_add ts_linspace position_km
              x_earth y_earth z_earth position_shape w response fetched status_ok)
    as (sats & orbit & initial & frames & exported
        & Hload & Hmax & _ & _ & Hframes & Hexport & Hscript).
  eexists. split; [exact Hscript|]. cbn [run_frames run_exported].
  assert (Hnames : map frame_name frames = map str_of_int (range NUM_FRAMES)).
  { apply Forall2_map_eq. apply for_each_Forall2 in Hframes.
    eapply Forall2_impl; [|exact Hframes].
    intros k frame Hbuild. unfold build_frame in Hbuild.
    destruct (for_each (marker_update (positions_of sats) (names_of sats) k)
                (range (len sats))) as [markers| |]; try discriminate.
    cbn [bind] in Hbuild. now injection Hbuild as <-. }
  assert (Hpaths : map path exported = map frame_path (range 150)).
  { destruct (export_loop_spec frames ([the_earth] ++ orbit) (range_up 150 0 2) 0)
      as (exported' & Hexport' & Hlen & Hnth).
    { intros x Hx. apply range_up_In in Hx. destruct Hx as (n & Hn & ->).
      apply for_each_range in Hframes. destruct Hframes as (Hflen & _).
      rewrite Hflen. unfold NUM_FRAMES. lia. }
    rewrite Hexport in Hexport'. injection Hexport' as <-.
    apply nth_error_ext. intros j. rewrite !nth_error_map.
    destruct (Nat.lt_ge_cases j 150) as [Hj|Hj].
    - destruct (Hnth j (2 * Z.of_nat j)) as (frame & _ & ->).
      { rewrite range_up_nth by exact Hj. f_equal. lia. }
      unfold range. rewrite range_up_nth by (change (Z.to_nat 150) with 150%nat; lia).
      cbn [option_map path]. do 2 f_equal. lia.
    - rewrite (proj2 (nth_error_None exported j)) by (rewrite Hlen, range_up_length; lia).
      rewrite (proj2 (nth_error_None (range 150) j)); [reflexivity|].
      unfold range. rewrite range_up_length. change (Z.to_nat 150) with 150%nat. lia. }
  split; [exact Hnames|]. split.
  { rewrite Hnames. apply NoDup_map_injective.
    - intros x y Hx Hy. apply In_range in Hx, Hy.
      apply str_of_int_injective; lia.
    - unfold range. apply range_up_NoDup. lia. }
  split; [exact Hpaths|].
  rewrite Hpaths. apply NoDup_map_injective.
  - intros x y Hx Hy. apply In_range in Hx, Hy.
    apply frame_path_injective; lia.
  - unfold range. apply range_up_NoDup. lia.
Qed.

End ScriptExtras.

(** ** The further properties on the test double *)

Lemma load_satellites_fields_trimmed_witness :
  strip (py "STARLINK-1008") = py "STARLINK-1008".
Proof.
  destruct (load_satellites_fields_trimmed demo_text 30) as (sats & Hrun & Hall).
  assert (Hdemo : load_satellites_text demo_text 30 =
                  Ok [mkEarthSatellite (py "1 44714U 19074B") (py "2 44714  53.0")
                        (py "STARLINK-1008");
                      mkEarthSatellite (py "1 44716U 19074D") (py "2 44716  53.1")
                        (py "STARLINK-1010")]) by reflexivity.
  rewrite Hdemo in Hrun. injection Hrun as <-.
  destruct (Hall _ (or_introl eq_refl)) as (Hname & _).
  exact Hname.
Defined.



Lemma script_without_satellites_witness :
  exists run : Run Z,
    demo_script (mkWorld Z (fun _ => Ok (mkResponse 200 [])) 20261103 7) = Ok run /\
    run_satellites run = [] /\
    len (run_frames run) = 300 /\
    len (run_exported run) = 150.
Proof.
  pose proof (script_without_satellites Z demo_utc demo_add demo_linspace
                demo_position_km [] [] []
                (mkWorld Z (fun _ => Ok (mkResponse 200 [])) 20261103 7)
                (mkResponse 200 []) eq_refl eq_refl eq_refl) as Hrun.
  eexists. split; [exact Hrun|]. repeat split.
Defined.

Lemma orbit_traces_follow_satellites_witness :
  exists run : Run Z,
    demo_script (demo_world 20261103 7) = Ok run /\
    len (run_orbit_traces run) = len (run_satellites run).
Proof.
  destruct (orbit_traces_follow_satellites Z demo_utc demo_add demo_linspace
              demo_position_km [] [] [] (demo_world 20261103 7)
              (mkResponse 200 demo_text) demo_position_shape eq_refl eq_refl)
    as (run & Hrun & Hlen & _).
  exists run. split; assumption.
Defined.

Lemma exported_images_match_figure_witness :
  exists run : Run Z,
    demo_script (demo_world 20261103 7) = Ok run /\
    len (figure_data (earth [] [] []) (run_orbit_traces run)
           (run_initial_markers run)) = 1 + 2 * len (run_satellites run).
Proof.
  destruct (exported_images_match_figure Z demo_utc demo_add demo_linspace
              demo_position_km [] [] [] (demo_world 20261103 7)
              (mkResponse 200 demo_text) demo_position_shape eq_refl eq_refl)
    as (run & Hrun & Hlen & _).
  exists run. split; assumption.
Defined.

Lemma frame_names_and_paths_distinct_witness :
  exists run : Run Z,
    demo_script (demo_world 20261103 7) = Ok run /\
    NoDup (map path (run_exported run)).
Proof.
  destruct (frame_names_and_paths_distinct Z demo_utc demo_add demo_linspace
              demo_position_km [] [] [] (demo_world 20261103 7)
              (mkResponse 200 demo_text) demo_position_shape eq_refl eq_refl)
    as (run & Hrun & _ & _ & _ & Hpaths).
  exists run. split; assumption.
Defined.

(** ** Completeness and free-text names *)




Lemma spec_records_same_element_lines (gs : list group) :
  forall gs' : list group,
    Forall2 (fun g g' : group =>
               snd (fst g') = snd (fst g) /\ snd g' = snd g) gs gs' ->
    map (fun sat => (sat_line1 sat, sat_line2 sat)) (spec_records gs') =
    map (fun sat => (sat_line1 sat, sat_line2 sat)) (spec_records gs).
Proof.
  induction gs as [|[[n a] b] gs IH]; intros gs' Hall;
    inversion Hall as [|? [[n' a'] b'] ? gs0 (Ha & Hb) Hrest]; subst;
    [reflexivity|].
  cbn [fst snd] in Ha, Hb. subst a' b'. cbn [spec_records spec_accept].
  destruct (prefix_check (strip a) (strip b)); cbn [map sat_line1 sat_line2];
    now rewrite (IH _ Hrest).
Qed.

(** X9: the name line is free text: it is never checked, and replacing the
    name lines of the groups by any other lines leaves the element lines of
    the records, and their number, unchanged. *)
Theorem load_loop_name_is_free_text (gs gs' : list group) (M : Z) :
  Forall2 (fun g g' : group =>
             snd (fst g') = snd (fst g) /\ snd g' = snd g) gs gs' ->
  exists st st' : loop_state,
    load_loop (flat_groups gs) M = Ok st /\
    load_loop (flat_groups gs') M = Ok st' /\
    map (fun sat => (sat_line1 sat, sat_line2 sat)) (satellites st') =
    map (fun sat => (sat_line1 sat, sat_line2 sat)) (satellites st).
Proof.
  intros Hall.
  destruct (load_loop_spec (flat_groups gs) M) as (st & Hst & Hsats).
  destruct (load_loop_spec (flat_groups gs') M) as (st' & Hst' & Hsats').
  exists st, st'. split; [assumption|]. split; [assumption|].
  rewrite Hsats, Hsats'. unfold spec_parse. rewrite !spec_groups_flat.
  rewrite <- !firstn_map. now rewrite (spec_records_same_element_lines gs gs').
Qed.

Lemma load_loop_name_is_free_text_witness :
  exists st' : loop_state,
    load_loop [py "1 not a name"; py "1 00001U"; py "2 00001"] 30 = Ok st' /\
    map (fun sat => (sat_line1 sat, sat_line2 sat)) (satellites st') =
    [(py "1 00001U", py "2 00001")].
Proof.
  destruct (load_loop_name_is_free_text
              [(py "SAT A", py "1 00001U", py "2 00001")]
              [(py "1 not a name", py "1 00001U", py "2 00001")] 30
              ltac:(repeat constructor))
    as (st & st' & Hst & Hst' & Hsame).
  exists st'. split; [exact Hst'|]. rewrite Hsame.
  assert (H1 : load_loop (flat_groups [(py "SAT A", py "1 00001U", py "2 00001")]) 30 =
               Ok (mkLoop [mkEarthSatellite (py "1 00001U") (py "2 00001")
                             (py "SAT A")] 3)) by reflexivity.
  rewrite H1 in Hst. injection Hst as <-. reflexivity.
Defined.
